(** * The reminder bot of [server/src/bot.ts]

    The duration normalizer ([parseQuantity], [parseUnit],
    [convertDurationToSeconds]), the session executor ([executeMessage]
    with [clearAllReminders] and the timer callbacks), the intent table of
    [parseMessage] with a matcher for its patterns, and the properties
    that the specification states of them.

    Conventions of the embedding.
    - A TypeScript [number] is [number]: [NaN] or an exact integer.  This is
      exact on the safe-integer range; fractions, infinities and rounding
      of very large products are outside the model.
    - A JavaScript string is a [string] of bytes.  Case mapping and word
      characters are the ASCII ones (bytes above 127 are neither letters
      nor word characters, as for the non-ASCII code units of a pattern
      without the [u] flag).
    - [undefined] is [None].
    - The [State] object is threaded explicitly; the socket [ws] is the
      transport and is not part of the model.  [new Date()] is the clock
      reading passed to [executeMessage], in milliseconds.
    - [createParser] lives in [./parser], which is not among the sources;
      it is modelled from the specification.  The statements about the
      executor do not depend on it: they speak of the commands that the
      builders of the table can produce from a match of their patterns. *)

From Stdlib Require Import ZArith String Ascii List Bool Lia DecimalString DecimalPos.
From stdpp Require Import base option list strings gmap.

Open Scope string_scope.
Open Scope list_scope.
Open Scope Z_scope.

(** ** JavaScript values *)

Inductive number : Set :=
| NaN
| Num (z : Z).

Definition num_mul (a b : number) : number :=
  match a, b with
  | Num x, Num y => Num (x * y)
  | _, _ => NaN
  end.

Definition num_add (a b : number) : number :=
  match a, b with
  | Num x, Num y => Num (x + y)
  | _, _ => NaN
  end.

(** [a === b] on numbers: [NaN] is not equal to itself. *)
Definition num_seq (a b : number) : bool :=
  match a, b with
  | Num x, Num y => x =? y
  | _, _ => false
  end.

(** ToBoolean on a number: [0] and [NaN] are falsy. *)
Definition num_truthy (a : number) : bool :=
  match a with
  | Num z => negb (z =? 0)
  | NaN => false
  end.

(** ToBoolean on a string: only the empty string is falsy. *)
Definition str_truthy (s : string) : bool :=
  match s with
  | EmptyString => false
  | String _ _ => true
  end.

(** ToBoolean on a possibly undefined value. *)
Definition opt_truthy {A} (t : A -> bool) (o : option A) : bool :=
  match o with
  | Some a => t a
  | None => false
  end.

Definition Z_to_string (z : Z) : string :=
  NilZero.string_of_int (Z.to_int z).

(** ToString on a number, as a template literal applies it. *)
Definition num_to_string (a : number) : string :=
  match a with
  | Num z => Z_to_string z
  | NaN => "NaN"
  end.

(** ToString on a possibly undefined string. *)
Definition opt_to_string (o : option string) : string :=
  match o with
  | Some s => s
  | None => "undefined"
  end.

(** ** Strings *)

Definition is_digit (c : ascii) : bool :=
  let n := N_of_ascii c in ((48 <=? n) && (n <=? 57))%N.

Definition is_upper (c : ascii) : bool :=
  let n := N_of_ascii c in ((65 <=? n) && (n <=? 90))%N.

Definition is_lower (c : ascii) : bool :=
  let n := N_of_ascii c in ((97 <=? n) && (n <=? 122))%N.

(** [\w]: letters, digits and the underscore. *)
Definition is_word (c : ascii) : bool :=
  is_digit c || is_upper c || is_lower c || (N_of_ascii c =? 95)%N.

Definition lower_ascii (c : ascii) : ascii :=
  if is_upper c then ascii_of_N (N_of_ascii c + 32) else c.

Fixpoint toLowerCase (s : string) : string :=
  match s with
  | EmptyString => EmptyString
  | String c r => String (lower_ascii c) (toLowerCase r)
  end.

Definition startsWith (s p : string) : bool := String.prefix p s.

Fixpoint all_chars (p : ascii -> bool) (s : string) : bool :=
  match s with
  | EmptyString => true
  | String c r => p c && all_chars p r
  end.

Definition digit_val (c : ascii) : Z := Z.of_N (N_of_ascii c) - 48.

Fixpoint digits_val (acc : Z) (s : string) : Z :=
  match s with
  | EmptyString => acc
  | String c r => digits_val (10 * acc + digit_val c) r
  end.

(** [Number(s)] on the strings the capture groups [\d+|a|an] and [\d+]
    admit: a run of decimal digits is its value, a token with a letter is
    [NaN].  The empty string is [0].  Signs, fractions, exponents, radix
    prefixes and surrounding blanks never occur in a captured token and
    are mapped to [NaN] here. *)
Definition Number (s : string) : number :=
  if all_chars is_digit s then Num (digits_val 0 s) else NaN.

(** ** Message definitions *)

Module TimeUnits.
Inductive t : Set :=
| none
| seconds
| minutes
| hours.
End TimeUnits.

Inductive Message : Set :=
| HelpMessage
| AddReminderMessage (text : string) (quantity : number) (unit : TimeUnits.t)
| AddReminderNoTimeMessage (text : string)
| ListRemindersMessage
| ClearAllRemindersMessage
| ClearReminderMessage (id : number)
| Time (quantity : number) (unit : TimeUnits.t)
| Confirm (confirm : bool)
| UnknownMessage.

(** ** Parsing *)

Definition parseQuantity (quantity : string) : number :=
  if startsWith quantity "a" then Num 1 else Number quantity.

Definition parseUnit (unit : string) : TimeUnits.t :=
  if startsWith (toLowerCase unit) "sec" then TimeUnits.seconds
  else if startsWith (toLowerCase unit) "min" then TimeUnits.minutes
  else if startsWith (toLowerCase unit) "hour" then TimeUnits.hours
  else TimeUnits.none.

(** The [switch] has no [break]: control enters at the matching label
    and runs every statement below it, so [minutes] also runs the
    statement of [hours].  There is no [default]. *)
Definition convertDurationToSeconds (quantity : number) (unit : TimeUnits.t) : number :=
  let seconds := quantity in
  let case_minutes seconds := num_mul seconds (Num 60) in
  let case_hours seconds := num_mul seconds (Num 3600) in
  match unit with
  | TimeUnits.minutes => case_hours (case_minutes seconds)
  | TimeUnits.hours => case_hours seconds
  | TimeUnits.seconds | TimeUnits.none => seconds
  end.

(** ** Domain logic *)

Definition nl : string := String (ascii_of_nat 10) EmptyString.
Definition dquote : string := String (ascii_of_nat 34) EmptyString.

Definition concat_all (parts : list string) : string :=
  fold_right String.append EmptyString parts.

Definition helpMessage : string := concat_all [
  "I am a reminder bot, here to help you get organized. Here are some of the things you can ask me to do:"; nl;
  nl;
  "<ul>"; nl;
  "  <li>Add reminders, e.g. <tt>remind me to make dinner in 5 minutes</tt>.</li>"; nl;
  "  <li>List reminders, e.g. <tt>show all reminders</tt>."; nl;
  "  <li>Clear reminders, e.g. <tt>clear all reminders</tt> or <tt>clear reminder 3</tt>."; nl;
  "</ul>"; nl;
  nl;
  "At the moment I am not very sophisticated, but maybe you can help make me better!" ].

Definition fallbackMessage : string := "I'm sorry, I don't understand what you mean.".

(** [s.replace(/\bw\b/g, rep)]: every whole-word occurrence of [w],
    scanning left to right.  A word boundary lies between two positions
    exactly one of which holds a word character; the ends of the string
    count as non-word. *)
Definition opt_is_word (c : option ascii) : bool :=
  match c with
  | Some c => is_word c
  | None => false
  end.

Definition word_boundary (before after : option ascii) : bool :=
  xorb (opt_is_word before) (opt_is_word after).

Definition head_char (s : string) : option ascii :=
  match s with
  | EmptyString => None
  | String c _ => Some c
  end.

Fixpoint last_char (d : option ascii) (s : string) : option ascii :=
  match s with
  | EmptyString => d
  | String c r => last_char (Some c) r
  end.

Fixpoint drop_chars (n : nat) (s : string) : string :=
  match n, s with
  | O, _ => s
  | S k, String _ r => drop_chars k r
  | S _, EmptyString => EmptyString
  end.

Definition word_at (w : string) (prev : option ascii) (s : string) : bool :=
  word_boundary prev (head_char s)
  && startsWith s w
  && word_boundary (last_char prev w) (head_char (drop_chars (String.length w) s)).

(** [skip] counts the characters of a match that are still to be
    consumed; [prev] is the character before the current position. *)
Fixpoint replace_word_from (w rep : string) (prev : option ascii) (skip : nat) (s : string) : string :=
  match s with
  | EmptyString => EmptyString
  | String c r =>
      match skip with
      | S k => replace_word_from w rep (Some c) k r
      | O =>
          if word_at w prev s
          then String.append rep (replace_word_from w rep (Some c) (String.length w - 1) r)
          else String c (replace_word_from w rep (Some c) 0 r)
      end
  end.

Definition replace_word (w rep s : string) : string :=
  replace_word_from w rep None 0 s.

(** [text.replace(/\bmy\b/g, 'your').replace(/\bme\b/g, 'you')] *)
Definition rewrite_pronouns (text : string) : string :=
  replace_word "me" "you" (replace_word "my" "your" text).

Inductive timer_origin : Set :=
| timer_add_reminder
| timer_add_reminder_no_time
| timer_time.

(** A [NodeJS.Timeout]: the delay handed to [setTimeout] and the values
    its callback closes over. *)
Record Timeout : Set := {
  timeout_origin : timer_origin;
  timeout_delay : number;
  timeout_id : number;
  timeout_text : option string;
  timeout_seconds : number
}.

Record Reminder : Set := {
  reminder_id : number;
  reminder_date : number;
  reminder_text : string;
  reminder_timeout : Timeout
}.

Record ReminderInfo : Set := {
  info_id : number;
  info_quantity : option number;
  info_unit : option TimeUnits.t;
  info_text : option string
}.

Record State : Type := {
  reminders : list Reminder;
  nextId : number;
  dialogHistory : list ReminderInfo;
  userModel : gmap string number
}.

Definition set_reminders (rs : list Reminder) (state : State) : State :=
  {| reminders := rs; nextId := nextId state;
     dialogHistory := dialogHistory state; userModel := userModel state |}.

Definition set_nextId (n : number) (state : State) : State :=
  {| reminders := reminders state; nextId := n;
     dialogHistory := dialogHistory state; userModel := userModel state |}.

Definition set_dialogHistory (h : list ReminderInfo) (state : State) : State :=
  {| reminders := reminders state; nextId := nextId state;
     dialogHistory := h; userModel := userModel state |}.

Definition set_userModel (m : gmap string number) (state : State) : State :=
  {| reminders := reminders state; nextId := nextId state;
     dialogHistory := dialogHistory state; userModel := m |}.

(** [new Date()] advanced by [seconds] with [setSeconds]: milliseconds
    since the epoch.  Daylight-saving shifts of the local clock and the
    bounds of the range of [Date] are not modelled. *)
Definition date_after (now : Z) (secs : number) : number :=
  num_add (Num now) (num_mul secs (Num 1000)).

Definition unit_word (secs : number) : string :=
  if num_seq secs (Num 1) then "second" else "seconds".

Definition scheduled_reply (about : string) (secs : number) : string :=
  concat_all [ "Ok, I will remind you about "; about; " in ";
               num_to_string secs; " "; unit_word secs; "." ].

Definition ask_reply (text : string) : string :=
  concat_all [ "How long does your "; text; " take?" ].

(** The result of a [case] block: the state it leaves and the value it
    returns, [None] when control leaves the block without [return]. *)
Definition outcome : Type := State * option string.

(** The executor is written over the conversion that it calls, so that a
    statement can speak of the arguments that reach the conversion;
    [executeMessage] below is the executor at [convertDurationToSeconds]. *)
Section Executor.

Variable convert : number -> TimeUnits.t -> number.

Definition case_help (state : State) : outcome :=
  (state, Some helpMessage).

Definition case_add_reminder (now : Z) (state : State)
    (message_text : string) (message_quantity : number) (message_unit : TimeUnits.t) : outcome :=
  let quantity := message_quantity in
  let timeUnit := message_unit in
  let text := rewrite_pronouns message_text in
  let id := nextId state in
  let state := set_nextId (num_add (nextId state) (Num 1)) state in
  let state := set_dialogHistory
    (dialogHistory state ++
      [ {| info_id := id; info_quantity := Some quantity;
           info_unit := Some timeUnit; info_text := Some text |} ]) state in
  let secs := convert quantity timeUnit in
  let date := date_after now secs in
  let timeout :=
    {| timeout_origin := timer_add_reminder; timeout_delay := num_mul secs (Num 1000);
       timeout_id := id; timeout_text := Some text; timeout_seconds := secs |} in
  let state := set_reminders
    (reminders state ++
      [ {| reminder_id := id; reminder_date := date;
           reminder_text := text; reminder_timeout := timeout |} ]) state in
  (state, Some (scheduled_reply text secs)).

Definition case_add_reminder_no_time (now : Z) (state : State) (message_text : string) : outcome :=
  let text := rewrite_pronouns message_text in
  let id := nextId state in
  let state := set_nextId (num_add (nextId state) (Num 1)) state in
  let state := set_dialogHistory
    (dialogHistory state ++
      [ {| info_id := id; info_quantity := None;
           info_unit := None; info_text := Some text |} ]) state in
  let remembered : option number := userModel state !! text in
  match remembered with
  | Some secs =>
      if negb (num_truthy secs)
      then (state, Some (ask_reply text))
      else
        let date := date_after now secs in
        let timeout :=
          {| timeout_origin := timer_add_reminder_no_time;
             timeout_delay := num_mul secs (Num 1000);
             timeout_id := id; timeout_text := Some text; timeout_seconds := secs |} in
        let state := set_reminders
          (reminders state ++
            [ {| reminder_id := id; reminder_date := date;
                 reminder_text := text; reminder_timeout := timeout |} ]) state in
        (state, Some (scheduled_reply text secs))
  | None => (state, Some (ask_reply text))
  end.

Definition case_time (now : Z) (state : State)
    (message_quantity : number) (message_unit : TimeUnits.t) : outcome :=
  let quantity := message_quantity in
  let timeUnit := message_unit in
  let last_index := (length (dialogHistory state) - 1)%nat in
  match dialogHistory state !! last_index with
  | None => (state, Some fallbackMessage)
  | Some currentReminder =>
      let currentReminder :=
        {| info_id := info_id currentReminder; info_quantity := Some quantity;
           info_unit := Some timeUnit; info_text := info_text currentReminder |} in
      let state := set_dialogHistory (<[last_index := currentReminder]> (dialogHistory state)) state in
      let secs := convert quantity timeUnit in
      let id := info_id currentReminder in
      let date := date_after now secs in
      let text := info_text currentReminder in
      let timeout :=
        {| timeout_origin := timer_time; timeout_delay := num_mul secs (Num 1000);
           timeout_id := id; timeout_text := text; timeout_seconds := secs |} in
      let state :=
        match text with
        | Some t =>
            if str_truthy t
            then set_reminders
                   (reminders state ++
                     [ {| reminder_id := id; reminder_date := date;
                          reminder_text := t; reminder_timeout := timeout |} ]) state
            else state
        | None => state
        end in
      (state, Some (scheduled_reply (String.append "your " (opt_to_string text)) secs))
  end.

(** [Math.round((date.getTime() - now) / 1000)] *)
Definition seconds_remaining (now : Z) (date : number) : number :=
  match date with
  | Num d => Num ((d - now + 500) / 1000)
  | NaN => NaN
  end.

Definition reminder_row (now : Z) (r : Reminder) : string :=
  concat_all [ nl;
    "              <tr>"; nl;
    "                <td>"; num_to_string (reminder_id r); "</td>"; nl;
    "                <td>"; num_to_string (seconds_remaining now (reminder_date r)); "</td>"; nl;
    "                <td>"; reminder_text r; "</td>"; nl;
    "              </tr>" ].

Definition case_list_reminders (now : Z) (state : State) : outcome :=
  match reminders state with
  | [] => (state, Some "You have no reminders.")
  | _ :: _ =>
      (state, Some (concat_all [ nl;
        "      <table border="; dquote; "1"; dquote; ">"; nl;
        "        <thead>"; nl;
        "          <tr>"; nl;
        "            <th>id</th>"; nl;
        "            <th>seconds remaining</th>"; nl;
        "            <th>text</th>"; nl;
        "          </tr>"; nl;
        "        </thead>"; nl;
        "        <tbody>"; nl;
        "          "; concat_all (List.map (reminder_row now) (reminders state)); nl;
        "        </tbody>"; nl;
        "      </table>" ]))
  end.

Definition clearAllReminders (state : State) : State :=
  set_reminders [] state.

Definition case_clear_all_reminders (state : State) : outcome :=
  (clearAllReminders state, Some "Ok, I have cleared all of your reminders.").

(** [rs.filter((r) => r !== reminder)] for the [reminder] that [find]
    returned: object identity, so exactly the first entry with the id
    goes, even when a later entry has the same fields. *)
Fixpoint remove_first {A} (p : A -> bool) (l : list A) : list A :=
  match l with
  | [] => []
  | x :: r => if p x then r else x :: remove_first p r
  end.

Definition case_clear_reminder (state : State) (message_id : number) : outcome :=
  let has_id (r : Reminder) := num_seq (reminder_id r) message_id in
  match List.find has_id (reminders state) with
  | None =>
      (state, Some (concat_all [ "There is no reminder with id "; num_to_string message_id; "." ]))
  | Some reminder =>
      let state := set_reminders (remove_first has_id (reminders state)) state in
      (state, Some (concat_all [ "Ok, I will not remind you to "; reminder_text reminder; "." ]))
  end.

Definition case_confirm (state : State) (message_confirm : bool) : outcome :=
  let last_index := (length (dialogHistory state) - 1)%nat in
  match dialogHistory state !! last_index with
  | None => (state, Some fallbackMessage)
  | Some currentReminder =>
      let confirm := message_confirm in
      let text := info_text currentReminder in
      let quantity := info_quantity currentReminder in
      let unit := info_unit currentReminder in
      match text, unit, quantity with
      | Some text, Some unit, Some quantity =>
          if str_truthy text && num_truthy quantity
          then
            if confirm
            then
              let secs := convert quantity unit in
              let state := set_userModel (<[text := secs]> (userModel state)) state in
              (state, Some "Consider it done.")
            else (state, Some "Alright, I won't.")
          else (state, None)
      | _, _, _ => (state, None)
      end
  end.

Definition case_unknown (state : State) : outcome :=
  (state, Some fallbackMessage).

(** The value is [None] if the function ends without [return].  The block
    of [case "confirm"] can end without [return]; control then falls
    through to [case "unknown"], the next label. *)
Definition executeMessage_with (now : Z) (state : State) (message : Message) : outcome :=
  match message with
  | HelpMessage => case_help state
  | AddReminderMessage text quantity unit => case_add_reminder now state text quantity unit
  | AddReminderNoTimeMessage text => case_add_reminder_no_time now state text
  | Time quantity unit => case_time now state quantity unit
  | ListRemindersMessage => case_list_reminders now state
  | ClearAllRemindersMessage => case_clear_all_reminders state
  | ClearReminderMessage id => case_clear_reminder state id
  | Confirm confirm =>
      match case_confirm state confirm with
      | (state, Some reply) => (state, Some reply)
      | (state, None) => case_unknown state
      end
  | UnknownMessage => case_unknown state
  end.

End Executor.

Definition executeMessage : Z -> State -> Message -> outcome :=
  executeMessage_with convertDurationToSeconds.

(** The callback handed to [setTimeout]: the frames it sends and the
    state it leaves. *)
Definition run_timeout (t : Timeout) (state : State) : State * list string :=
  let text := timeout_text t in
  let due := concat_all [ "It is time for your "; opt_to_string text; "!" ] in
  let ask := concat_all [ "Should I remember that "; opt_to_string text; " takes ";
                          num_to_string (timeout_seconds t); " seconds?" ] in
  let unknown_text :=
    match text with
    | Some key => bool_decide (userModel state !! key = None)
    | None => false
    end in
  let frames :=
    match timeout_origin t with
    | timer_add_reminder => if unknown_text then [due; ask] else [due]
    | timer_add_reminder_no_time => [due]
    | timer_time =>
        if opt_truthy str_truthy text && unknown_text then [due; ask] else [due]
    end in
  (set_reminders
     (List.filter (fun r => negb (num_seq (reminder_id r) (timeout_id t))) (reminders state))
     state,
   frames).

(** The state a connection starts with. *)
Definition initial_state : State :=
  {| reminders := []; nextId := Num 1; dialogHistory := []; userModel := ∅ |}.

(** ** Regular expressions

    The patterns of the intent table, as syntax.  Every pattern of the
    table is written [/^body$/i]: it is matched against the whole input,
    letters compare without regard to case, and there is no [m], [s] or
    [u] flag. *)

Module RegExp.

Inductive t : Set :=
| Eps
| Chr (c : ascii)                 (* a literal character *)
| Dot                             (* [.] *)
| Digit                           (* [\d] *)
| Seq (a b : t)
| Alt (a b : t)                   (* [a|b], [a] tried first *)
| Star (a : t)                    (* greedy [a*] *)
| Opt (a : t)                     (* greedy [a?] *)
| Group (name : string) (a : t).  (* [(?<name>a)] *)

Fixpoint lit (s : string) : t :=
  match s with
  | EmptyString => Eps
  | String c EmptyString => Chr c
  | String c r => Seq (Chr c) (lit r)
  end.

Fixpoint seqs (rs : list t) : t :=
  match rs with
  | [] => Eps
  | [r] => r
  | r :: rest => Seq r (seqs rest)
  end.

Fixpoint alts (r : t) (rs : list t) : t :=
  match rs with
  | [] => r
  | r' :: rest => Alt r (alts r' rest)
  end.

(** [a+] *)
Definition Plus (a : t) : t := Seq a (Star a).

(** The [groups] object of a match. *)
Abbreviation captures := (gmap string string).

(** LineTerminator, on bytes: line feed and carriage return. *)
Definition is_line_terminator (c : ascii) : bool :=
  let n := N_of_ascii c in ((n =? 10) || (n =? 13))%N.

(** Characters under the [i] flag. *)
Definition same_char (a b : ascii) : bool :=
  Ascii.eqb (lower_ascii a) (lower_ascii b).

Definition is_empty (s : string) : bool :=
  match s with
  | EmptyString => true
  | String _ _ => false
  end.

Definition shorter (s' s : string) : bool :=
  (String.length s' <? String.length s)%nat.

(** The backtracking matcher: [run r s caps k] matches [r] at the front
    of [s] and hands the rest of the input and the captures to the
    continuation [k]; when [k] fails the next way for [r] to match is
    tried, in the order of the ECMAScript semantics (left alternative
    first, greedy quantifiers longest first).  An iteration of a
    quantifier that consumes nothing is rejected, as there. *)
Fixpoint run (r : t) (s : string) (caps : captures)
    (k : string -> captures -> option captures) {struct r} : option captures :=
  match r with
  | Eps => k s caps
  | Chr c =>
      match s with
      | String h rest => if same_char h c then k rest caps else None
      | EmptyString => None
      end
  | Dot =>
      match s with
      | String h rest => if is_line_terminator h then None else k rest caps
      | EmptyString => None
      end
  | Digit =>
      match s with
      | String h rest => if is_digit h then k rest caps else None
      | EmptyString => None
      end
  | Seq a b => run a s caps (fun s' caps' => run b s' caps' k)
  | Alt a b =>
      match run a s caps k with
      | Some groups => Some groups
      | None => run b s caps k
      end
  | Star a =>
      (fix loop (fuel : nat) (s : string) (caps : captures) {struct fuel} : option captures :=
         match fuel with
         | O => k s caps
         | S fuel' =>
             match run a s caps
                     (fun s' caps' => if shorter s' s then loop fuel' s' caps' else None) with
             | Some groups => Some groups
             | None => k s caps
             end
         end) (String.length s) s caps
  | Opt a =>
      match run a s caps (fun s' caps' => if shorter s' s then k s' caps' else None) with
      | Some groups => Some groups
      | None => k s caps
      end
  | Group name a =>
      run a s caps
        (fun s' caps' =>
           k s' (<[name := substring 0 (String.length s - String.length s') s]> caps'))
  end.

(** [/^r$/i.exec(s)]: the groups of the match, if [r] matches all of [s]. *)
Definition exec (r : t) (s : string) : option captures :=
  run r s ∅ (fun rest caps => if is_empty rest then Some caps else None).

(** What the matcher computes, as a relation: [matches r w caps caps']
    when [r] can consume exactly [w], taking the captures from [caps]
    to [caps']. *)
Inductive matches : t -> string -> captures -> captures -> Prop :=
| matches_eps caps : matches Eps EmptyString caps caps
| matches_chr c h caps :
    same_char h c = true -> matches (Chr c) (String h EmptyString) caps caps
| matches_dot h caps :
    is_line_terminator h = false -> matches Dot (String h EmptyString) caps caps
| matches_digit h caps :
    is_digit h = true -> matches Digit (String h EmptyString) caps caps
| matches_seq a b w1 w2 caps1 caps2 caps3 :
    matches a w1 caps1 caps2 -> matches b w2 caps2 caps3 ->
    matches (Seq a b) (String.append w1 w2) caps1 caps3
| matches_alt_l a b w caps caps' :
    matches a w caps caps' -> matches (Alt a b) w caps caps'
| matches_alt_r a b w caps caps' :
    matches b w caps caps' -> matches (Alt a b) w caps caps'
| matches_star_stop a caps : matches (Star a) EmptyString caps caps
| matches_star_step a w1 w2 caps1 caps2 caps3 :
    w1 <> EmptyString ->
    matches a w1 caps1 caps2 -> matches (Star a) w2 caps2 caps3 ->
    matches (Star a) (String.append w1 w2) caps1 caps3
| matches_opt_skip a caps : matches (Opt a) EmptyString caps caps
| matches_opt_take a w caps caps' :
    w <> EmptyString -> matches a w caps caps' -> matches (Opt a) w caps caps'
| matches_group name a w caps caps' :
    matches a w caps caps' -> matches (Group name a) w caps (<[name := w]> caps').

(** The named groups of a pattern, with the pattern each one holds. *)
Fixpoint groups_of (r : t) : list (string * t) :=
  match r with
  | Eps | Chr _ | Dot | Digit => []
  | Seq a b | Alt a b => groups_of a ++ groups_of b
  | Star a | Opt a => groups_of a
  | Group name a => (name, a) :: groups_of a
  end.

(** The groups that take part in every match of a pattern. *)
Fixpoint required_groups (r : t) : list string :=
  match r with
  | Seq a b => required_groups a ++ required_groups b
  | Group name a => name :: required_groups a
  | Eps | Chr _ | Dot | Digit | Alt _ _ | Star _ | Opt _ => []
  end.

End RegExp.

(** ** The intent table of [parseMessage] *)

Import RegExp.

Record intent : Type := {
  regexps : list RegExp.t;
  func : captures -> option Message
}.

(** [\d+|a|an] *)
Definition quantity_pattern : RegExp.t :=
  alts (Plus Digit) [lit "a"; lit "an"].

(** [(?:second|minute|hour)s?] *)
Definition unit_pattern : RegExp.t :=
  Seq (alts (lit "second") [lit "minute"; lit "hour"]) (Opt (Chr "s")).

(** [(?:remind|tell) me (?:about|of) ] *)
Definition remind_me_about : RegExp.t :=
  seqs [alts (lit "remind") [lit "tell"]; lit " me "; alts (lit "about") [lit "of"]; lit " "].

(** [(?:clear|delete|remove|forget) ] *)
Definition clear_verb : RegExp.t :=
  seqs [alts (lit "clear") [lit "delete"; lit "remove"; lit "forget"]; lit " "].

(** [(?:(?:the|my) )] *)
Definition article : RegExp.t :=
  seqs [alts (lit "the") [lit "my"]; lit " "].

Definition help_pattern : RegExp.t :=
  seqs [lit "help"; Opt (Chr ".")].

Definition add_reminder_pattern : RegExp.t :=
  seqs [ remind_me_about; Star article;
         Group "text" (Star Dot); lit " in ";
         Group "quantity" quantity_pattern; lit " ";
         Group "unit" unit_pattern; Opt (Chr ".") ].

(** The fronted form.  After the group of the article, which holds its
    own blank, the pattern has one more blank. *)
Definition add_reminder_fronted_pattern : RegExp.t :=
  seqs [ lit "in "; Group "quantity" quantity_pattern; lit " ";
         Group "unit" unit_pattern; Opt (Chr ","); lit " ";
         remind_me_about; article; lit " ";
         Group "text" (Star Dot); Opt (Chr ".") ].

Definition add_reminder_no_time_pattern : RegExp.t :=
  seqs [ remind_me_about; Star article; Opt (Group "text" (Star Dot)) ].

Definition list_reminders_pattern : RegExp.t :=
  seqs [ alts (lit "list") [lit "show"; lit "tell"]; lit " ";
         Star (seqs [alts (lit "me") [lit "all"; lit "of"; lit "my"]; lit " "]);
         lit "reminders"; Opt (Chr ".") ].

Definition clear_all_reminders_pattern : RegExp.t :=
  seqs [ clear_verb;
         Star (seqs [alts (lit "all") [lit "of"; lit "my"]; lit " "]);
         lit "reminders"; Opt (Chr ".") ].

Definition clear_reminder_pattern : RegExp.t :=
  seqs [ clear_verb; Opt (lit "reminder "); Group "id" (Plus Digit); Opt (Chr ".") ].

Definition time_pattern : RegExp.t :=
  seqs [ Star (seqs [lit "it takes"; lit " "]);
         Group "quantity" quantity_pattern; lit " ";
         Group "unit" unit_pattern; Opt (Chr ".") ].

Definition yes_pattern : RegExp.t :=
  seqs [ alts (lit "yes") [lit "sure"; lit "yeah"; lit "ok"; lit "okay"]; Opt (Chr ".") ].

Definition no_pattern : RegExp.t :=
  seqs [ alts (lit "no") [lit "nope"; lit "nevermind"]; Opt (Chr ".") ].

(** A builder that destructures a group which did not take part in the
    match receives [undefined]; the commands are typed with defined
    fields, so such a command is [None]. *)
Definition intents : list intent := [
  {| regexps := [ help_pattern ];
     func := fun _ => Some HelpMessage |};
  {| regexps := [ add_reminder_pattern; add_reminder_fronted_pattern ];
     func := fun groups =>
       quantity ← groups !! "quantity";
       text ← groups !! "text";
       unit ← groups !! "unit";
       Some (AddReminderMessage text (parseQuantity quantity) (parseUnit unit)) |};
  {| regexps := [ add_reminder_no_time_pattern ];
     func := fun groups =>
       text ← groups !! "text";
       Some (AddReminderNoTimeMessage text) |};
  {| regexps := [ list_reminders_pattern ];
     func := fun _ => Some ListRemindersMessage |};
  {| regexps := [ clear_all_reminders_pattern ];
     func := fun _ => Some ClearAllRemindersMessage |};
  {| regexps := [ clear_reminder_pattern ];
     func := fun groups =>
       id ← groups !! "id";
       Some (ClearReminderMessage (Number id)) |};
  {| regexps := [ time_pattern ];
     func := fun groups =>
       quantity ← groups !! "quantity";
       unit ← groups !! "unit";
       Some (Time (parseQuantity quantity) (parseUnit unit)) |};
  {| regexps := [ yes_pattern ];
     func := fun _ => Some (Confirm true) |};
  {| regexps := [ no_pattern ];
     func := fun _ => Some (Confirm false) |}
].

Definition fallback : Message := UnknownMessage.

(** The commands the table can build: the fallback, and what the builder
    of an intent makes of the groups of a match of one of its patterns. *)
Definition parser_built (message : Message) : Prop :=
  message = fallback \/
  exists i r input groups,
    i ∈ intents /\ r ∈ regexps i /\
    matches r input ∅ groups /\ func i groups = Some message.

(** [String.prototype.trim], on bytes: blanks are the ASCII ones. *)
Definition is_blank (c : ascii) : bool :=
  let n := N_of_ascii c in (((9 <=? n) && (n <=? 13)) || (n =? 32))%N.

Fixpoint trim_start (s : string) : string :=
  match s with
  | EmptyString => EmptyString
  | String c r => if is_blank c then trim_start r else s
  end.

Fixpoint trim_end (s : string) : string :=
  match s with
  | EmptyString => EmptyString
  | String c r =>
      match trim_end r with
      | EmptyString => if is_blank c then EmptyString else String c EmptyString
      | r' => String c r'
      end
  end.

Definition trim (s : string) : string := trim_end (trim_start s).

Fixpoint first_match (rs : list RegExp.t) (s : string) : option captures :=
  match rs with
  | [] => None
  | r :: rest =>
      match exec r s with
      | Some groups => Some groups
      | None => first_match rest s
      end
  end.

(** Modelled from the spec: [createParser] of [./parser], which is not
    among the sources.  The input is trimmed; the intents are tried in
    the order of the table and the patterns of an intent in their order;
    the first pattern that matches the whole trimmed input wins and its
    named groups go to the builder of its intent; when nothing matches
    the result is the fallback. *)
Fixpoint createParser (table : list intent) (fallback : Message) (message : string)
    : option Message :=
  match table with
  | [] => Some fallback
  | i :: rest =>
      match first_match (regexps i) (trim message) with
      | Some groups => func i groups
      | None => createParser rest fallback message
      end
  end.

Definition parseMessage : string -> option Message :=
  createParser intents fallback.

(** ** The connection handler *)

(** [ws.on('message', ...)]: the frames sent in reply to one inbound
    frame.  [None] when the builder produced no typed command. *)
Definition on_message (now : Z) (state : State) (rawMessage : string)
    : option (State * list (option string)) :=
  message ← parseMessage rawMessage;
  let '(state, reply) := executeMessage now state message in
  Some (state, [reply]).

(** [ws.on('close', ...)] *)
Definition on_close (state : State) : State := clearAllReminders state.

(** The states of a session: the initial one, and those that a command of
    the table or a timer callback leaves.  Which timers are pending is not
    tracked, so any callback may run: every state the program can be in is
    among these. *)
Inductive reachable : State -> Prop :=
| reachable_initial : reachable initial_state
| reachable_message now state message :
    reachable state -> parser_built message ->
    reachable (fst (executeMessage now state message))
| reachable_timeout t state :
    reachable state -> reachable (fst (run_timeout t state)).

(** ** Notions used in the statements *)

(** The unit a command carries, if it carries one. *)
Definition message_unit (message : Message) : option TimeUnits.t :=
  match message with
  | AddReminderMessage _ _ unit | Time _ unit => Some unit
  | _ => None
  end.

(** A dialog slot that [case "confirm"] does not accept: a field is
    missing, or the quantity is [0]. *)
Definition incomplete (info : ReminderInfo) : Prop :=
  info_text info = None \/ info_quantity info = None \/
  info_unit info = None \/ info_quantity info = Some (Num 0).

(** The ids of the active reminders, in list order. *)
Definition reminder_ids (state : State) : list number :=
  List.map reminder_id (reminders state).

(** Running a list of commands, one after the other, at clock [now]. *)
Definition run_commands (now : Z) (state : State) (messages : list Message) : State :=
  fold_left (fun state message => fst (executeMessage now state message)) messages state.

(** The tokens the group [(?<quantity>\d+|a|an)] admits. *)
Definition quantity_token (q : string) : Prop :=
  (q <> EmptyString /\ all_chars is_digit q = true) \/
  toLowerCase q = "a" \/ toLowerCase q = "an".

(** The tokens the group [(?<unit>(?:second|minute|hour)s?)] admits. *)
Definition unit_token (u : string) : Prop :=
  toLowerCase u ∈ ["second"; "seconds"; "minute"; "minutes"; "hour"; "hours"].

(** What a command of the table carries: tokens that the groups of its
    pattern admit, run through the builder of its intent. *)
Definition built_from_tokens (message : Message) : Prop :=
  match message with
  | AddReminderMessage _ quantity unit | Time quantity unit =>
      exists q u, quantity_token q /\ unit_token u /\
                  quantity = parseQuantity q /\ unit = parseUnit u
  | ClearReminderMessage id =>
      exists t, t <> EmptyString /\ all_chars is_digit t = true /\ id = Number t
  | _ => True
  end.

(** A quantity that [parseQuantity] can return on a token of its group. *)
Definition quantity_in_range (q : number) : Prop :=
  q = NaN \/ exists n, 0 <= n /\ q = Num n.

(** A dialog slot whose fields come from commands of the table. *)
Definition slot_from_parser (info : ReminderInfo) : Prop :=
  info_unit info <> Some TimeUnits.none /\
  forall q, info_quantity info = Some q -> quantity_in_range q.

(** An id that the counter handed out before it reached [n]. *)
Definition id_below (n : Z) (id : number) : Prop :=
  exists i, id = Num i /\ 1 <= i < n.

(** A positive number. *)
Definition positive_number (n : number) : Prop :=
  exists z, n = Num z /\ 0 < z.

(** What holds of every state of a session. *)
Record session_invariant (state : State) : Prop := {
  inv_counter :
    exists n, nextId state = Num n /\ 1 <= n /\
      Forall (fun r => id_below n (reminder_id r)) (reminders state) /\
      Forall (fun info => id_below n (info_id info)) (dialogHistory state);
  inv_slots : Forall slot_from_parser (dialogHistory state);
  inv_memory : forall key v, userModel state !! key = Some v -> positive_number v
}.

(** ** The earlier version of the normalizer

    The routine of the earlier version of the bot, which the current
    [parseQuantity], [parseUnit] and [convertDurationToSeconds] replace.
    Its units are told apart by an [else if] chain. *)
Definition parseTimeWithUnitAsSeconds (quantity unit : string) : number :=
  let seconds := if startsWith quantity "a" then Num 1 else Number quantity in
  if startsWith (toLowerCase unit) "minute" then num_mul seconds (Num 60)
  else if startsWith (toLowerCase unit) "hour" then num_mul seconds (Num 3600)
  else seconds.

(** ** Further notions used in the statements *)

(** A pattern none of whose characters can match a line terminator. *)
Fixpoint line_free (r : RegExp.t) : bool :=
  match r with
  | Chr c => negb (is_line_terminator (lower_ascii c))
  | Eps | Dot | Digit => true
  | Seq a b | Alt a b => line_free a && line_free b
  | Star a | Opt a | Group _ a => line_free a
  end.

Definition no_line_terminator (s : string) : bool :=
  all_chars (fun c => negb (is_line_terminator c)) s.

(** Whether [w] occurs in [s] as a whole word, the character before [s]
    being [prev]. *)
Fixpoint has_word (w : string) (prev : option ascii) (s : string) : bool :=
  match s with
  | EmptyString => false
  | String c r => word_at w prev s || has_word w (Some c) r
  end.

(** * Properties *)

(** ** The definitions on small inputs *)

Example parse_help : parseMessage " Help. " = Some HelpMessage.
Proof. vm_compute. reflexivity. Qed.

Example parse_add_reminder :
  parseMessage "remind me about my homework in 5 minutes"
  = Some (AddReminderMessage "homework" (Num 5) TimeUnits.minutes).
Proof. vm_compute. reflexivity. Qed.

(** The text group is greedy: it takes all up to the last [" in "]. *)
Example parse_add_reminder_greedy :
  parseMessage "Tell me of the talk in 5 minutes in AN hour."
  = Some (AddReminderMessage "talk in 5 minutes" NaN TimeUnits.hours).
Proof. vm_compute. reflexivity. Qed.

(** The fronted form needs two blanks after the article. *)
Example parse_add_reminder_fronted :
  parseMessage "in 2 hours, remind me about my  walk"
  = Some (AddReminderMessage "walk" (Num 2) TimeUnits.hours) /\
  parseMessage "in 2 hours, remind me about my walk" = Some UnknownMessage.
Proof. split; vm_compute; reflexivity. Qed.

Example parse_add_reminder_no_time :
  parseMessage "remind me about my homework" = Some (AddReminderNoTimeMessage "homework").
Proof. vm_compute. reflexivity. Qed.

(** The intents are tried in order: this is not a request for the list. *)
Example parse_order :
  parseMessage "tell me of my reminders" = Some (AddReminderNoTimeMessage "reminders") /\
  parseMessage "tell me my reminders" = Some ListRemindersMessage.
Proof. split; vm_compute; reflexivity. Qed.

Example parse_clear :
  parseMessage "forget reminder 12." = Some (ClearReminderMessage (Num 12)) /\
  parseMessage "forget my reminders" = Some ClearAllRemindersMessage.
Proof. split; vm_compute; reflexivity. Qed.

Example parse_time :
  parseMessage "it takes 20 minutes" = Some (Time (Num 20) TimeUnits.minutes) /\
  parseMessage "an Hour" = Some (Time (Num 1) TimeUnits.hours).
Proof. split; vm_compute; reflexivity. Qed.

Example parse_confirm :
  parseMessage "Okay." = Some (Confirm true) /\ parseMessage "nope" = Some (Confirm false).
Proof. split; vm_compute; reflexivity. Qed.

Example parse_banana : parseMessage "banana" = Some UnknownMessage.
Proof. vm_compute. reflexivity. Qed.

Example rewrite_pronouns_whole_words :
  rewrite_pronouns "walk with my dog, not my_cat or mymy, for me"
  = "walk with your dog, not my_cat or mymy, for you".
Proof. vm_compute. reflexivity. Qed.

Example number_to_string :
  num_to_string (Num 4320000) = "4320000" /\ num_to_string (Num (-3)) = "-3" /\
  num_to_string (Num 0) = "0" /\ num_to_string NaN = "NaN".
Proof. repeat split; vm_compute; reflexivity. Qed.

Example clear_reminder_removes_first_of_two :
  let state := run_commands 0 initial_state
                 [ AddReminderMessage "homework" (Num 5) TimeUnits.seconds;
                   Time (Num 9) TimeUnits.seconds ] in
  let result := executeMessage 0 state (ClearReminderMessage (Num 1)) in
  List.map timeout_seconds (List.map reminder_timeout (reminders (fst result))) = [Num 9] /\
  snd result = Some "Ok, I will not remind you to homework.".
Proof. split; vm_compute; reflexivity. Qed.

(** ** The duration normalizer *)

Lemma convert_seconds q : convertDurationToSeconds q TimeUnits.seconds = q.
Proof. reflexivity. Qed.

Lemma convert_none q : convertDurationToSeconds q TimeUnits.none = q.
Proof. reflexivity. Qed.

Lemma convert_hours q :
  convertDurationToSeconds q TimeUnits.hours = num_mul q (Num 3600).
Proof. reflexivity. Qed.

(** The statement of [hours] runs after the one of [minutes]. *)
Lemma convert_minutes q :
  convertDurationToSeconds q TimeUnits.minutes = num_mul q (Num 216000).
Proof. destruct q as [|z]; cbn; [reflexivity|]. f_equal. lia. Qed.

Lemma convert_Num z u :
  exists k, 0 < k /\ convertDurationToSeconds (Num z) u = Num (z * k).
Proof.
  destruct u.
  - exists 1. split; [lia|]. cbn. f_equal. lia.
  - exists 1. split; [lia|]. cbn. f_equal. lia.
  - exists 216000. split; [lia|]. rewrite convert_minutes. reflexivity.
  - exists 3600. split; [lia|]. reflexivity.
Qed.

Lemma convert_truthy q u :
  num_truthy q = true -> num_truthy (convertDurationToSeconds q u) = true.
Proof.
  destruct q as [|z]; [discriminate|]. cbn [num_truthy]. intros Hz.
  destruct (convert_Num z u) as (k & Hk & ->). cbn [num_truthy].
  apply negb_true_iff, Z.eqb_neq. apply negb_true_iff, Z.eqb_neq in Hz. nia.
Qed.

(** C1, the failing instance: for the tokens ["5"] and ["minutes"] the
    conversion does not yield [300]; the quantity is multiplied by [60]
    and then also by [3600], which gives [1080000]. *)
Theorem minutes_round_trip_is_cumulative :
  parseQuantity "5" = Num 5 /\
  parseUnit "minutes" = TimeUnits.minutes /\
  convertDurationToSeconds (parseQuantity "5") (parseUnit "minutes") = Num 1080000 /\
  convertDurationToSeconds (parseQuantity "5") (parseUnit "minutes") <> Num 300.
Proof. repeat split; try reflexivity. vm_compute. discriminate. Qed.

(** The two other instances of the round trip hold. *)
Lemma hour_round_trip :
  convertDurationToSeconds (parseQuantity "a") (parseUnit "hour") = Num 3600.
Proof. reflexivity. Qed.

Lemma seconds_round_trip :
  convertDurationToSeconds (parseQuantity "10") (parseUnit "seconds") = Num 10.
Proof. reflexivity. Qed.

(** ** The executor *)

Lemma last_index_lookup {A} (l : list A) : l !! (length l - 1)%nat = last l.
Proof. rewrite last_lookup. f_equal. lia. Qed.

Lemma last_index_empty {A} (l : list A) : l !! (length l - 1)%nat = None <-> l = [].
Proof. rewrite last_index_lookup. apply last_None. Qed.

(** C8: the unknown command is answered with the fallback reply and the
    state it leaves is the state it found, in every field. *)
Theorem unknown_is_pure now state :
  executeMessage now state UnknownMessage = (state, Some fallbackMessage).
Proof. reflexivity. Qed.

(** C7: with an empty dialog history, a time specification and a
    confirmation are both answered with the fallback reply, and the
    state is left as it was. *)
Theorem dialog_underflow now state quantity unit confirm :
  dialogHistory state = [] ->
  executeMessage now state (Time quantity unit) = (state, Some fallbackMessage) /\
  executeMessage now state (Confirm confirm) = (state, Some fallbackMessage).
Proof.
  intros Hempty. unfold executeMessage; cbn [executeMessage_with]. unfold case_time, case_confirm.
  rewrite Hempty. cbn. split; reflexivity.
Qed.

Lemma dialog_underflow_witness :
  dialogHistory initial_state = [] /\
  executeMessage 0 initial_state (Time (Num 20) TimeUnits.minutes)
    = (initial_state, Some fallbackMessage) /\
  executeMessage 0 initial_state (Confirm true) = (initial_state, Some fallbackMessage).
Proof.
  split; [reflexivity|].
  exact (dialog_underflow 0 initial_state (Num 20) TimeUnits.minutes true eq_refl).
Defined.

(** C9: when the last entry of the dialog history is incomplete, a
    confirmation, accepted or not, is answered with the fallback reply
    (the block falls through to the unknown case); the state, and so the
    duration memory, is left as it was. *)
Theorem confirm_incomplete_falls_through now state confirm info :
  last (dialogHistory state) = Some info ->
  incomplete info ->
  executeMessage now state (Confirm confirm) = (state, Some fallbackMessage) /\
  userModel (fst (executeMessage now state (Confirm confirm))) = userModel state.
Proof.
  intros Hlast Hinc.
  assert (executeMessage now state (Confirm confirm) = (state, Some fallbackMessage)) as E.
  { unfold executeMessage; cbn [executeMessage_with]. unfold case_confirm.
    rewrite last_index_lookup, Hlast.
    destruct info as [i q u t]. unfold incomplete in Hinc. cbn in Hinc |- *.
    destruct Hinc as [-> | [-> | [-> | ->]]].
    - reflexivity.
    - destruct t, u; reflexivity.
    - destruct t; reflexivity.
    - destruct t as [t|], u; try reflexivity.
      rewrite andb_false_r. reflexivity. }
  rewrite E. split; reflexivity.
Qed.

Lemma confirm_incomplete_falls_through_witness :
  let state := fst (executeMessage 0 initial_state (AddReminderNoTimeMessage "homework")) in
  let info := {| info_id := Num 1; info_quantity := None;
                 info_unit := None; info_text := Some "homework" |} in
  last (dialogHistory state) = Some info /\
  incomplete info /\
  executeMessage 0 state (Confirm true) = (state, Some fallbackMessage) /\
  userModel (fst (executeMessage 0 state (Confirm true))) = userModel state.
Proof.
  intros state info.
  assert (last (dialogHistory state) = Some info) as Hlast by reflexivity.
  assert (incomplete info) as Hinc by (right; left; reflexivity).
  split; [exact Hlast|]. split; [exact Hinc|].
  exact (confirm_incomplete_falls_through 0 state true info Hlast Hinc).
Defined.

Lemma executeMessage_returns now state message :
  exists state' reply, executeMessage now state message = (state', Some reply).
Proof.
  unfold executeMessage.
  destruct message as [ | text q u | text | | | id | q u | c | ]; cbn [executeMessage_with].
  - eexists _, _. reflexivity.
  - eexists _, _. reflexivity.
  - unfold case_add_reminder_no_time.
    destruct (_ !! _) as [secs|]; [destruct (negb (num_truthy secs))|];
      eexists _, _; reflexivity.
  - unfold case_list_reminders. destruct (reminders state); eexists _, _; reflexivity.
  - eexists _, _. reflexivity.
  - unfold case_clear_reminder. destruct (List.find _ _); eexists _, _; reflexivity.
  - unfold case_time. destruct (_ !! _); eexists _, _; reflexivity.
  - destruct (case_confirm _ state c) as [state' [reply|]]; eexists _, _; reflexivity.
  - eexists _, _. reflexivity.
Qed.

(** C5: for each of the nine commands and every state the executor
    returns a reply string; no path through the switch ends without one
    (the confirm block that ends without [return] continues in the
    unknown case). *)
Theorem executeMessage_total now state message :
  exists state' reply, executeMessage now state message = (state', Some reply).
Proof. apply executeMessage_returns. Qed.

(** C6: when the duration memory holds, for the rewritten subject of an
    add-reminder command without a time, a duration that a confirmation
    wrote (the conversion of a truthy quantity), the command schedules a
    reminder with that duration at once and replies with the scheduling
    confirmation, not with the question about the duration. *)
Theorem memory_reuse now state text quantity unit :
  num_truthy quantity = true ->
  userModel state !! rewrite_pronouns text
    = Some (convertDurationToSeconds quantity unit) ->
  let subject := rewrite_pronouns text in
  let secs := convertDurationToSeconds quantity unit in
  let id := nextId state in
  executeMessage now state (AddReminderNoTimeMessage text) =
    ({| reminders := reminders state ++
          [ {| reminder_id := id; reminder_date := date_after now secs;
               reminder_text := subject;
               reminder_timeout :=
                 {| timeout_origin := timer_add_reminder_no_time;
                    timeout_delay := num_mul secs (Num 1000);
                    timeout_id := id; timeout_text := Some subject;
                    timeout_seconds := secs |} |} ];
        nextId := num_add id (Num 1);
        dialogHistory := dialogHistory state ++
          [ {| info_id := id; info_quantity := None;
               info_unit := None; info_text := Some subject |} ];
        userModel := userModel state |},
     Some (scheduled_reply subject secs)) /\
  scheduled_reply subject secs <> ask_reply subject.
Proof.
  intros Hq Hmem. cbn zeta. split.
  - unfold executeMessage; cbn [executeMessage_with]. unfold case_add_reminder_no_time.
    cbn [userModel set_dialogHistory set_nextId]. rewrite Hmem.
    rewrite (convert_truthy _ unit Hq). reflexivity.
  - unfold scheduled_reply, ask_reply. cbn. discriminate.
Qed.

Lemma memory_reuse_witness :
  let state := set_userModel {[ "walk with your dog" := Num 72000 ]} initial_state in
  num_truthy (Num 20) = true /\
  userModel state !! rewrite_pronouns "walk with my dog"
    = Some (convertDurationToSeconds (Num 20) TimeUnits.hours) /\
  snd (executeMessage 0 state (AddReminderNoTimeMessage "walk with my dog"))
    = Some "Ok, I will remind you about walk with your dog in 72000 seconds.".
Proof.
  intros state.
  assert (num_truthy (Num 20) = true) as Hq by reflexivity.
  assert (userModel state !! rewrite_pronouns "walk with my dog"
          = Some (convertDurationToSeconds (Num 20) TimeUnits.hours)) as Hmem
    by (vm_compute; reflexivity).
  split; [exact Hq|]. split; [exact Hmem|].
  rewrite (proj1 (memory_reuse 0 state "walk with my dog" (Num 20) TimeUnits.hours Hq Hmem)).
  vm_compute. reflexivity.
Defined.

(** C2, the run of the dialog: the first utterance is answered with the
    question about the duration, as claimed; the following ["20 minutes"]
    completes the reminder, but the reply announces [4320000] seconds
    (20 * 60 * 3600), not [1200]. *)
Theorem dialog_continuity_reply now :
  parseMessage "remind me about my homework" = Some (AddReminderNoTimeMessage "homework") /\
  parseMessage "20 minutes" = Some (Time (Num 20) TimeUnits.minutes) /\
  let first := executeMessage now initial_state (AddReminderNoTimeMessage "homework") in
  let second := executeMessage now (fst first) (Time (Num 20) TimeUnits.minutes) in
  snd first = Some "How long does your homework take?" /\
  snd second = Some "Ok, I will remind you about your homework in 4320000 seconds." /\
  snd second <> Some "Ok, I will remind you about your homework in 1200 seconds." /\
  reminder_ids (fst second) = [Num 1].
Proof.
  split; [vm_compute; reflexivity|]. split; [vm_compute; reflexivity|].
  cbn zeta. repeat split; try reflexivity. discriminate.
Qed.

(** C3, the failing run: a time specification right after a complete
    add-reminder command schedules a second reminder under the id of the
    first, so the active list holds the id [1] twice. *)
Theorem time_after_add_reminder_shares_id now :
  parseMessage "remind me about my homework in 5 minutes"
    = Some (AddReminderMessage "homework" (Num 5) TimeUnits.minutes) /\
  parseMessage "20 minutes" = Some (Time (Num 20) TimeUnits.minutes) /\
  let state := run_commands now initial_state
                 [ AddReminderMessage "homework" (Num 5) TimeUnits.minutes;
                   Time (Num 20) TimeUnits.minutes ] in
  reminder_ids state = [Num 1; Num 1] /\ ~ NoDup (reminder_ids state).
Proof.
  split; [vm_compute; reflexivity|]. split; [vm_compute; reflexivity|].
  cbn zeta.
  assert (reminder_ids (run_commands now initial_state
            [ AddReminderMessage "homework" (Num 5) TimeUnits.minutes;
              Time (Num 20) TimeUnits.minutes ]) = [Num 1; Num 1]) as E by reflexivity.
  split; [exact E|]. rewrite E. intros Hnd.
  apply NoDup_cons in Hnd as [Hnotin _]. apply Hnotin. left.
Qed.

(** ** The matcher computes matches *)

Section Matcher.

Lemma append_cons c (a b : string) :
  String.append (String c a) b = String c (String.append a b).
Proof. reflexivity. Qed.

Lemma append_nil (b : string) : String.append EmptyString b = b.
Proof. reflexivity. Qed.

Lemma length_append (a b : string) :
  String.length (String.append a b) = (String.length a + String.length b)%nat.
Proof.
  induction a as [|c a IH]; [reflexivity|].
  rewrite append_cons. cbn [String.length]. now rewrite IH.
Qed.

Lemma append_empty_r (a : string) : String.append a EmptyString = a.
Proof.
  induction a as [|c a IH]; [reflexivity|]. rewrite append_cons. now rewrite IH.
Qed.

Lemma append_assoc (a b c : string) :
  String.append (String.append a b) c = String.append a (String.append b c).
Proof.
  induction a as [|x a IH]; [reflexivity|]. rewrite !append_cons. now rewrite IH.
Qed.

Lemma substring_prefix (w rest : string) :
  substring 0 (String.length w) (String.append w rest) = w.
Proof.
  induction w as [|c w IH].
  - rewrite append_nil. destruct rest; reflexivity.
  - rewrite append_cons. cbn [String.length substring]. now rewrite IH.
Qed.

Lemma consumed_prefix (w rest : string) :
  substring 0 (String.length (String.append w rest) - String.length rest)
    (String.append w rest) = w.
Proof.
  rewrite length_append.
  replace (String.length w + String.length rest - String.length rest)%nat
    with (String.length w) by lia.
  apply substring_prefix.
Qed.

Lemma shorter_nonempty (w rest : string) :
  shorter rest (String.append w rest) = true -> w <> EmptyString.
Proof.
  unfold shorter. intros H ->. rewrite append_nil in H.
  apply Nat.ltb_lt in H. lia.
Qed.

(** Whatever the matcher returns came out of the continuation, called on
    the rest of the input after a match of the pattern. *)
Lemma run_sound r : forall s caps k groups,
  run r s caps k = Some groups ->
  exists w rest caps',
    s = String.append w rest /\ matches r w caps caps' /\ k rest caps' = Some groups.
Proof.
  induction r as [| c | | | a IHa b IHb | a IHa b IHb | a IHa | a IHa | name a IHa];
    intros s caps k groups H; cbn [run] in H.
  - exists EmptyString, s, caps. repeat split; [constructor | exact H].
  - destruct s as [|h rest]; [discriminate|].
    destruct (same_char h c) eqn:E; [|discriminate].
    exists (String h EmptyString), rest, caps. repeat split; [now constructor | exact H].
  - destruct s as [|h rest]; [discriminate|].
    destruct (is_line_terminator h) eqn:E; [discriminate|].
    exists (String h EmptyString), rest, caps. repeat split; [now constructor | exact H].
  - destruct s as [|h rest]; [discriminate|].
    destruct (is_digit h) eqn:E; [|discriminate].
    exists (String h EmptyString), rest, caps. repeat split; [now constructor | exact H].
  - apply IHa in H as (w1 & s1 & caps1 & -> & M1 & H).
    apply IHb in H as (w2 & s2 & caps2 & -> & M2 & H).
    exists (String.append w1 w2), s2, caps2.
    split; [now rewrite append_assoc|]. split; [econstructor; eassumption | exact H].
  - destruct (run a s caps k) as [g|] eqn:E.
    + injection H as ->. apply IHa in E as (w & rest & caps' & -> & M & E).
      exists w, rest, caps'. repeat split; [now apply matches_alt_l | exact E].
    + apply IHb in H as (w & rest & caps' & -> & M & H).
      exists w, rest, caps'. repeat split; [now apply matches_alt_r | exact H].
  - revert H. generalize (String.length s) as fuel. intros fuel. revert s caps.
    induction fuel as [|fuel IHfuel]; intros s caps H.
    + exists EmptyString, s, caps. repeat split; [constructor | exact H].
    + match type of H with
      | match ?x with _ => _ end = _ => destruct x as [g|] eqn:E
      end.
      * injection H as ->. apply IHa in E as (w1 & s1 & caps1 & -> & M1 & E).
        destruct (shorter s1 (String.append w1 s1)) eqn:Hs; [|discriminate].
        apply IHfuel in E as (w2 & s2 & caps2 & -> & M2 & E).
        exists (String.append w1 w2), s2, caps2.
        split; [now rewrite append_assoc|]. split; [|exact E].
        eapply matches_star_step; eauto using shorter_nonempty.
      * exists EmptyString, s, caps. repeat split; [constructor | exact H].
  - match type of H with
    | match ?x with _ => _ end = _ => destruct x as [g|] eqn:E
    end.
    + injection H as ->. apply IHa in E as (w & rest & caps' & -> & M & E).
      destruct (shorter rest (String.append w rest)) eqn:Hs; [|discriminate].
      exists w, rest, caps'. repeat split; [|exact E].
      apply matches_opt_take; eauto using shorter_nonempty.
    + exists EmptyString, s, caps. repeat split; [constructor | exact H].
  - apply IHa in H as (w & rest & caps' & -> & M & H).
    rewrite consumed_prefix in H.
    exists w, rest, (<[name := w]> caps'). repeat split; [now constructor | exact H].
Qed.

Lemma exec_sound r s groups :
  exec r s = Some groups -> matches r s ∅ groups.
Proof.
  unfold exec. intros H.
  apply run_sound in H as (w & rest & caps' & -> & M & H).
  destruct rest; [|discriminate]. cbn in H. injection H as <-.
  now rewrite append_empty_r.
Qed.

(** A group that is set after a match was set before it or took part in
    it, and then holds a match of the pattern of that group. *)
Lemma matches_groups r w caps caps' :
  matches r w caps caps' ->
  forall name v, caps' !! name = Some v ->
    caps !! name = Some v \/
    exists g c1 c2, (name, g) ∈ groups_of r /\ matches g v c1 c2.
Proof.
  induction 1 as
    [ caps | c h caps Hc | h caps Hh | h caps Hh
    | a b w1 w2 caps1 caps2 caps3 Ma IHa Mb IHb
    | a b w caps caps' Ma IHa | a b w caps caps' Mb IHb
    | a caps | a w1 w2 caps1 caps2 caps3 Hne Ma IHa Ms IHs
    | a caps | a w caps caps' Hne Ma IHa
    | name' a w caps caps' Ma IHa ];
    intros name v Hv; cbn [groups_of]; auto.
  - destruct (IHb _ _ Hv) as [Hv2 | (g & c1 & c2 & Hin & Hg)].
    + destruct (IHa _ _ Hv2) as [Hv1 | (g & c1 & c2 & Hin & Hg)]; [now left|].
      right. exists g, c1, c2. split; [|exact Hg]. apply elem_of_app. now left.
    + right. exists g, c1, c2. split; [|exact Hg]. apply elem_of_app. now right.
  - destruct (IHa _ _ Hv) as [Hv1 | (g & c1 & c2 & Hin & Hg)]; [now left|].
    right. exists g, c1, c2. split; [|exact Hg]. apply elem_of_app. now left.
  - destruct (IHb _ _ Hv) as [Hv1 | (g & c1 & c2 & Hin & Hg)]; [now left|].
    right. exists g, c1, c2. split; [|exact Hg]. apply elem_of_app. now right.
  - destruct (IHs _ _ Hv) as [Hv2 | (g & c1 & c2 & Hin & Hg)].
    + destruct (IHa _ _ Hv2) as [Hv1 | (g & c1 & c2 & Hin & Hg)]; [now left|].
      right. exists g, c1, c2. split; [exact Hin | exact Hg].
    + right. exists g, c1, c2. split; [exact Hin | exact Hg].
  - destruct (decide (name' = name)) as [-> | Hne].
    + rewrite lookup_insert_eq in Hv. injection Hv as <-.
      right. exists a, caps, caps'. split; [apply list_elem_of_here | exact Ma].
    + rewrite lookup_insert_ne in Hv by exact Hne.
      destruct (IHa _ _ Hv) as [Hv1 | (g & c1 & c2 & Hin & Hg)]; [now left|].
      right. exists g, c1, c2. split; [now apply list_elem_of_further | exact Hg].
Qed.

End Matcher.

(** Inversion of a match of a pattern given by its syntax. *)
Ltac invert_matches :=
  repeat match goal with
  | H : matches Eps _ _ _ |- _ => inversion H; subst; clear H
  | H : matches (Chr _) _ _ _ |- _ => inversion H; subst; clear H
  | H : matches Digit _ _ _ |- _ => inversion H; subst; clear H
  | H : matches Dot _ _ _ |- _ => inversion H; subst; clear H
  | H : matches (Seq _ _) _ _ _ |- _ => inversion H; subst; clear H
  | H : matches (Alt _ _) _ _ _ |- _ => inversion H; subst; clear H
  | H : matches (Opt _) _ _ _ |- _ => inversion H; subst; clear H
  | H : matches (Group _ _) _ _ _ |- _ => inversion H; subst; clear H
  end.

Ltac use_chars :=
  repeat match goal with
  | H : same_char _ ?c = true |- _ =>
      apply Ascii.eqb_eq in H;
      let c' := eval vm_compute in (lower_ascii c) in
      change (lower_ascii c) with c' in H
  | H : is_digit _ = true |- _ => rewrite H
  end.

Ltac lower_token :=
  cbv [String.append toLowerCase];
  repeat match goal with
  | H : lower_ascii _ = _ |- _ => rewrite H; clear H
  end.

Section Tokens.

Lemma matches_star_digits w caps caps' :
  matches (Star Digit) w caps caps' -> all_chars is_digit w = true.
Proof.
  remember (Star Digit) as r eqn:Er.
  induction 1 as [ | | | | | | | | a w1 w2 c1 c2 c3 Hne Ma _ Ms IHs | | | ];
    try discriminate; [reflexivity|].
  injection Er as ->. invert_matches. rewrite append_cons, append_nil. cbn [all_chars].
  rewrite IHs by reflexivity. now use_chars.
Qed.

Lemma matches_digits w caps caps' :
  matches (Plus Digit) w caps caps' -> w <> EmptyString /\ all_chars is_digit w = true.
Proof.
  unfold Plus. intros H. invert_matches. rewrite append_cons, append_nil.
  split; [discriminate|]. cbn [all_chars].
  erewrite matches_star_digits by eassumption. now use_chars.
Qed.

Lemma matches_quantity q caps caps' :
  matches quantity_pattern q caps caps' -> quantity_token q.
Proof.
  unfold quantity_pattern. cbn [alts lit]. intros H.
  inversion H as [| | | | | a b w c c' Hd | a b w c c' Hr | | | | |]; subst; clear H.
  - left. eapply matches_digits; eassumption.
  - right. invert_matches; use_chars; lower_token; [left | right]; reflexivity.
Qed.

Lemma matches_unit u caps caps' :
  matches unit_pattern u caps caps' -> unit_token u.
Proof.
  unfold unit_pattern, unit_token. cbn [alts lit]. intros H.
  invert_matches; use_chars; lower_token; set_solver.
Qed.

Lemma parseUnit_token u : unit_token u -> parseUnit u <> TimeUnits.none.
Proof.
  unfold unit_token, parseUnit. intros H.
  repeat (apply elem_of_cons in H as [-> | H]); try discriminate.
  now apply elem_of_nil in H.
Qed.

Lemma digits_val_nonneg s : forall acc, 0 <= acc -> all_chars is_digit s = true -> 0 <= digits_val acc s.
Proof.
  induction s as [|c s IH]; intros acc Hacc Hd; cbn in *; [exact Hacc|].
  apply andb_true_iff in Hd as [Hc Hs]. apply IH; [|exact Hs].
  unfold is_digit in Hc. apply andb_true_iff in Hc as [Hlo Hhi].
  apply N.leb_le in Hlo. unfold digit_val. lia.
Qed.

Lemma parseQuantity_range q :
  parseQuantity q = NaN \/ exists n, 0 <= n /\ parseQuantity q = Num n.
Proof.
  unfold parseQuantity, Number. destruct (startsWith q "a").
  - right. exists 1. split; [lia | reflexivity].
  - destruct (all_chars is_digit q) eqn:Hd; [|now left].
    right. eexists. split; [|reflexivity]. now apply digits_val_nonneg.
Qed.

Ltac group_cases H :=
  cbv [groups_of app add_reminder_pattern add_reminder_fronted_pattern
       add_reminder_no_time_pattern clear_reminder_pattern time_pattern
       remind_me_about article clear_verb seqs alts lit Plus
       quantity_pattern unit_pattern] in H;
  repeat (apply elem_of_cons in H as [H | H]);
  try (apply elem_of_nil in H; contradiction);
  simplify_eq.

Ltac group_of M name Hv Hg :=
  let g := fresh "g" in let c1 := fresh "c" in let c2 := fresh "c" in
  let Hin := fresh "Hin" in let Hv' := fresh "Hv" in
  destruct (matches_groups _ _ _ _ M name _ Hv) as [Hv' | (g & c1 & c2 & Hin & Hg)];
  [ rewrite lookup_empty in Hv'; discriminate | group_cases Hin ].

Lemma parser_built_tokens message : parser_built message -> built_from_tokens message.
Proof.
  intros [-> | (i & r & input & groups & Hi & Hr & M & F)]; [exact I|].
  unfold intents in Hi.
  repeat (apply elem_of_cons in Hi as [-> | Hi]); try (now apply elem_of_nil in Hi);
    cbn [regexps func] in Hr, F; try (injection F as <-; exact I).
  - destruct (groups !! "quantity") as [q|] eqn:Hq; [|discriminate].
    destruct (groups !! "text") as [t|] eqn:Ht; [|discriminate].
    destruct (groups !! "unit") as [u|] eqn:Hu; [|discriminate].
    injection F as <-. cbn [built_from_tokens].
    exists q, u.
    repeat (apply elem_of_cons in Hr as [-> | Hr]); try (now apply elem_of_nil in Hr).
    + group_of M "quantity" Hq Mq. group_of M "unit" Hu Mu.
      repeat split; [exact (matches_quantity _ _ _ Mq) | exact (matches_unit _ _ _ Mu)].
    + group_of M "quantity" Hq Mq. group_of M "unit" Hu Mu.
      repeat split; [exact (matches_quantity _ _ _ Mq) | exact (matches_unit _ _ _ Mu)].
  - destruct (groups !! "text") as [t|] eqn:Ht; [|discriminate].
    injection F as <-. exact I.
  - destruct (groups !! "id") as [t|] eqn:Ht; [|discriminate].
    injection F as <-. cbn [built_from_tokens]. exists t.
    repeat (apply elem_of_cons in Hr as [-> | Hr]); try (now apply elem_of_nil in Hr).
    group_of M "id" Ht Md.
    destruct (matches_digits _ _ _ Md). auto.
  - destruct (groups !! "quantity") as [q|] eqn:Hq; [|discriminate].
    destruct (groups !! "unit") as [u|] eqn:Hu; [|discriminate].
    injection F as <-. cbn [built_from_tokens].
    exists q, u.
    repeat (apply elem_of_cons in Hr as [-> | Hr]); try (now apply elem_of_nil in Hr).
    group_of M "quantity" Hq Mq. group_of M "unit" Hu Mu.
    repeat split; [exact (matches_quantity _ _ _ Mq) | exact (matches_unit _ _ _ Mu)].
Qed.

Lemma first_match_sound rs s groups :
  first_match rs s = Some groups -> exists r, r ∈ rs /\ matches r s ∅ groups.
Proof.
  induction rs as [|r rs IH]; cbn [first_match]; [discriminate|].
  destruct (exec r s) as [g|] eqn:E.
  - intros [= ->]. exists r. split; [left | now apply exec_sound].
  - intros H. destruct (IH H) as (r' & Hin & M). exists r'. split; [now right | exact M].
Qed.

Lemma createParser_sound table message command :
  createParser table fallback message = Some command ->
  command = fallback \/
  exists i r input groups,
    i ∈ table /\ r ∈ regexps i /\ matches r input ∅ groups /\ func i groups = Some command.
Proof.
  induction table as [|i table IH]; cbn [createParser].
  - intros [= <-]. now left.
  - destruct (first_match (regexps i) (trim message)) as [groups|] eqn:E.
    + intros F. right. apply first_match_sound in E as (r & Hr & M).
      exists i, r, (trim message), groups. repeat split; [left | | |]; assumption.
    + intros H. destruct (IH H) as [-> | (i' & r & input & groups & Hi & Hr & M & F)];
        [now left|].
      right. exists i', r, input, groups. repeat split; [now right | | |]; assumption.
Qed.

(** Every command that [parseMessage] returns is a command of the table. *)
Lemma parseMessage_parser_built rawMessage message :
  parseMessage rawMessage = Some message -> parser_built message.
Proof. apply createParser_sound. Qed.

End Tokens.

(** ** What every state of a session satisfies *)

Section Invariant.

Lemma Forall_List_filter {A} (P : A -> Prop) (f : A -> bool) (l : list A) :
  Forall P l -> Forall P (List.filter f l).
Proof.
  induction 1 as [|x l Hx Hl IH]; cbn; [constructor|].
  destruct (f x); [constructor|]; assumption.
Qed.

Lemma Forall_remove_first {A} (P : A -> Prop) (f : A -> bool) (l : list A) :
  Forall P l -> Forall P (remove_first f l).
Proof.
  induction 1 as [|x l Hx Hl IH]; cbn; [constructor|].
  destruct (f x); [|constructor]; assumption.
Qed.

Lemma id_below_mono n m id : n <= m -> id_below n id -> id_below m id.
Proof. intros Hnm (i & -> & Hi). exists i. split; [reflexivity | lia]. Qed.

Lemma quantity_in_range_positive q u :
  quantity_in_range q -> num_truthy q = true ->
  positive_number (convertDurationToSeconds q u).
Proof.
  intros [-> | (n & Hn & ->)] Ht; [discriminate|].
  cbn in Ht. apply negb_true_iff, Z.eqb_neq in Ht.
  destruct (convert_Num n u) as (k & Hk & ->).
  exists (n * k). split; [reflexivity | nia].
Qed.

Lemma positive_number_truthy v : positive_number v -> num_truthy v = true.
Proof.
  intros (z & -> & Hz). cbn. apply negb_true_iff, Z.eqb_neq. lia.
Qed.

Lemma invariant_initial : session_invariant initial_state.
Proof.
  split; cbn.
  - exists 1. repeat split; try constructor. lia.
  - constructor.
  - intros key v H. rewrite lookup_empty in H. discriminate.
Qed.

Lemma invariant_run_timeout t state :
  session_invariant state -> session_invariant (fst (run_timeout t state)).
Proof.
  intros [(n & Hn & H1 & Hr & Hh) Hs Hm]. split; cbn.
  - exists n. repeat split; auto using Forall_List_filter.
  - exact Hs.
  - exact Hm.
Qed.

Lemma slots_snoc history info :
  Forall slot_from_parser history -> slot_from_parser info ->
  Forall slot_from_parser (history ++ [info]).
Proof. intros Hs Hi. apply Forall_app. split; [exact Hs|]. now constructor. Qed.

Lemma ids_snoc {A} (f : A -> number) n (l : list A) x :
  Forall (fun a => id_below n (f a)) l -> f x = Num n -> 1 <= n ->
  Forall (fun a => id_below (n + 1) (f a)) (l ++ [x]).
Proof.
  intros Hl Hx Hn. apply Forall_app. split.
  - eapply Forall_impl; [exact Hl|]. intros a. apply id_below_mono. lia.
  - constructor; [|constructor]. exists n. split; [exact Hx | lia].
Qed.

Lemma ids_weaken {A} (f : A -> number) n (l : list A) :
  Forall (fun a => id_below n (f a)) l ->
  Forall (fun a => id_below (n + 1) (f a)) l.
Proof. intros Hl. eapply Forall_impl; [exact Hl|]. intros a. apply id_below_mono. lia. Qed.

Ltac same_fields n :=
  split; cbn;
  [ exists n; repeat split; auto using Forall_remove_first, Forall_nil
  | assumption | assumption ].

Lemma invariant_executeMessage now state message :
  built_from_tokens message -> session_invariant state ->
  session_invariant (fst (executeMessage now state message)).
Proof.
  intros Hb [(n & Hn & H1 & Hr & Hh) Hs Hm].
  destruct message as [ | text q u | text | | | id | q u | c | ]; unfold executeMessage; cbn [executeMessage_with].
  - same_fields n.
  - destruct Hb as (qt & ut & Hqt & Hut & -> & ->).
    split; cbn.
    + rewrite Hn. exists (n + 1). cbn.
      repeat split; [lia | now apply ids_snoc | now apply ids_snoc].
    + apply slots_snoc; [exact Hs|]. split; cbn.
      * intros [= E]. now apply parseUnit_token in E.
      * intros q' [= <-]. apply parseQuantity_range.
    + exact Hm.
  - unfold case_add_reminder_no_time. cbn [userModel set_dialogHistory set_nextId].
    assert (slot_from_parser
              {| info_id := nextId state; info_quantity := None; info_unit := None;
                 info_text := Some (rewrite_pronouns text) |}) as Hnew
      by (split; cbn; [discriminate | intros ? [=]]).
    destruct (userModel state !! rewrite_pronouns text) as [secs|] eqn:Hmem;
      [destruct (negb (num_truthy secs))|]; split; cbn;
      try (rewrite Hn; exists (n + 1); cbn;
           repeat split; [lia | first [now apply ids_snoc | now apply ids_weaken]
                              | now apply ids_snoc]);
      try (now apply slots_snoc); try exact Hm.
  - unfold case_list_reminders. destruct (reminders state) eqn:E; rewrite <- E in Hr; same_fields n.
  - same_fields n.
  - unfold case_clear_reminder. destruct (List.find _ _); same_fields n.
  - destruct Hb as (qt & ut & Hqt & Hut & -> & ->).
    unfold case_time.
    destruct (dialogHistory state !! _) as [info|] eqn:Hlast; [|same_fields n].
    assert (id_below n (info_id info)) as Hid.
    { eapply Forall_lookup_1 in Hh; [exact Hh | exact Hlast]. }
    assert (Forall slot_from_parser
              (<[(length (dialogHistory state) - 1)%nat :=
                   {| info_id := info_id info;
                      info_quantity := Some (parseQuantity qt);
                      info_unit := Some (parseUnit ut);
                      info_text := info_text info |}]> (dialogHistory state))) as Hs'.
    { apply Forall_insert; [exact Hs|]. split; cbn.
      - intros [= E]. now apply parseUnit_token in E.
      - intros q' [= <-]. apply parseQuantity_range. }
    assert (Forall (fun i => id_below n (info_id i))
              (<[(length (dialogHistory state) - 1)%nat :=
                   {| info_id := info_id info;
                      info_quantity := Some (parseQuantity qt);
                      info_unit := Some (parseUnit ut);
                      info_text := info_text info |}]> (dialogHistory state))) as Hh'.
    { apply Forall_insert; [exact Hh | exact Hid]. }
    cbn [info_id info_text].
    destruct (info_text info) as [t|]; [destruct (str_truthy t)|]; split; cbn;
      try exact Hs'; try exact Hm; exists n; repeat split; auto.
    apply Forall_app. split; [exact Hr|]. constructor; [exact Hid | constructor].
  - unfold case_confirm.
    destruct (dialogHistory state !! _) as [info|] eqn:Hlast; [|same_fields n].
    assert (slot_from_parser info) as [Hu Hq].
    { eapply Forall_lookup_1 in Hs; [exact Hs | exact Hlast]. }
    destruct (info_text info) as [t|]; [|same_fields n].
    destruct (info_unit info) as [u|]; [|same_fields n].
    destruct (info_quantity info) as [q|]; [|same_fields n].
    destruct (str_truthy t); [|same_fields n].
    destruct (num_truthy q) eqn:Hq'; [|same_fields n].
    destruct c; [|same_fields n].
    split; cbn; [exists n; repeat split; auto | assumption |].
    intros key v. destruct (decide (t = key)) as [-> | Hne].
    + rewrite lookup_insert_eq. intros [= <-].
      apply quantity_in_range_positive; auto.
    + rewrite lookup_insert_ne by exact Hne. apply Hm.
  - same_fields n.
Qed.

Lemma reachable_invariant state : reachable state -> session_invariant state.
Proof.
  induction 1 as [ | now state message _ IH Hb | t state _ IH ].
  - apply invariant_initial.
  - apply invariant_executeMessage; [now apply parser_built_tokens | exact IH].
  - apply invariant_run_timeout, IH.
Qed.

End Invariant.

(** ** Reachable states *)

Section Reachable.

Lemma reachable_run_commands now messages : forall state,
  reachable state -> Forall parser_built messages ->
  reachable (run_commands now state messages).
Proof.
  induction messages as [|m ms IH]; intros state Hs Hms; [exact Hs|].
  apply Forall_cons in Hms as [Hm Hms]. cbn.
  apply IH; [|exact Hms]. now apply reachable_message.
Qed.

(** The executor never calls the conversion on [none]: on a state of a
    session and a command of the table it does the same with any
    conversion that agrees with [convertDurationToSeconds] on the three
    recognized units. *)
Lemma executor_ignores_conversion_of_none convert now state message :
  (forall q u, u <> TimeUnits.none -> convert q u = convertDurationToSeconds q u) ->
  reachable state -> parser_built message ->
  executeMessage_with convert now state message = executeMessage now state message.
Proof.
  intros Hconv Hr Hb. apply parser_built_tokens in Hb.
  apply reachable_invariant in Hr as [_ Hs _].
  unfold executeMessage.
  destruct message as [ | text q u | text | | | id | q u | c | ];
    cbn [executeMessage_with]; try reflexivity.
  - destruct Hb as (qt & ut & _ & Hu & -> & ->).
    unfold case_add_reminder. rewrite Hconv by now apply parseUnit_token. reflexivity.
  - destruct Hb as (qt & ut & _ & Hu & -> & ->).
    unfold case_time. rewrite Hconv by now apply parseUnit_token. reflexivity.
  - unfold case_confirm.
    destruct (dialogHistory state !! _) as [info|] eqn:Hlast; [|reflexivity].
    eapply Forall_lookup_1 in Hs as [Hu _]; [|exact Hlast].
    destruct (info_text info) as [t|]; [|reflexivity].
    destruct (info_unit info) as [u|]; [|reflexivity].
    destruct (info_quantity info) as [q|]; [|reflexivity].
    rewrite Hconv by congruence. reflexivity.
Qed.

(** C4: a unit token that the unit group admits is never parsed to
    [none]; so no command of the table carries the unit [none], in no
    state of a session does a dialog slot hold it, and the executor never
    hands [none] to the conversion: what it does is the same for every
    conversion that agrees with [convertDurationToSeconds] on seconds,
    minutes and hours. *)
Theorem none_unit_never_reaches_conversion :
  (forall u caps caps',
     matches unit_pattern u caps caps' -> parseUnit u <> TimeUnits.none) /\
  (forall message,
     parser_built message -> message_unit message <> Some TimeUnits.none) /\
  (forall state info,
     reachable state -> info ∈ dialogHistory state ->
     info_unit info <> Some TimeUnits.none) /\
  (forall convert now state message,
     (forall q u, u <> TimeUnits.none -> convert q u = convertDurationToSeconds q u) ->
     reachable state -> parser_built message ->
     executeMessage_with convert now state message = executeMessage now state message).
Proof.
  split; [|split; [|split]].
  - intros u caps caps' M. eapply parseUnit_token, matches_unit, M.
  - intros message Hb. apply parser_built_tokens in Hb.
    destruct message; cbn in *; try discriminate;
      destruct Hb as (q & u & _ & Hu & _ & ->); intros [= E];
      now apply parseUnit_token in E.
  - intros state info Hr Hin. apply reachable_invariant in Hr as [_ Hs _].
    rewrite Forall_forall in Hs. now apply Hs.
  - intros convert now state message. apply executor_ignores_conversion_of_none.
Qed.

Lemma none_unit_never_reaches_conversion_witness :
  let message := Time (Num 20) TimeUnits.minutes in
  let state := fst (executeMessage 0 initial_state
                      (AddReminderMessage "homework" (Num 5) TimeUnits.hours)) in
  let info := {| info_id := Num 1; info_quantity := Some (Num 5);
                 info_unit := Some TimeUnits.hours; info_text := Some "homework" |} in
  parser_built message /\ reachable state /\ info ∈ dialogHistory state /\
  parseUnit "Minutes" <> TimeUnits.none /\
  message_unit message <> Some TimeUnits.none /\
  info_unit info <> Some TimeUnits.none /\
  executeMessage_with (fun q u => if u is TimeUnits.none then Num 0
                                  else convertDurationToSeconds q u) 0 state message
    = executeMessage 0 state message.
Proof.
  intros message state info.
  assert (parser_built message) as Hb
    by (apply (parseMessage_parser_built "20 minutes"); vm_compute; reflexivity).
  assert (reachable state) as Hr.
  { apply reachable_message; [apply reachable_initial|].
    apply (parseMessage_parser_built "remind me about my homework in 5 hours").
    vm_compute. reflexivity. }
  assert (info ∈ dialogHistory state) as Hin by (left).
  assert (matches unit_pattern "Minutes" ∅ ∅) as M
    by (apply exec_sound; vm_compute; reflexivity).
  destruct none_unit_never_reaches_conversion as (Htoken & Hmessage & Hslot & Hexec).
  split; [exact Hb|]. split; [exact Hr|]. split; [exact Hin|].
  split; [exact (Htoken _ _ _ M)|]. split; [exact (Hmessage _ Hb)|].
  split; [exact (Hslot _ _ Hr Hin)|].
  apply Hexec; [|exact Hr | exact Hb].
  intros q u Hu. destruct u; [contradiction | reflexivity..].
Defined.

(** C10: in every state of a session each value of the duration memory
    is a positive number, and an add-reminder command without a time whose
    rewritten subject is in the memory schedules a reminder with the
    remembered duration and replies with the confirmation: it never asks
    for the duration of a remembered subject. *)
Theorem remembered_durations_are_positive state :
  reachable state ->
  (forall key v, userModel state !! key = Some v -> positive_number v) /\
  (forall now text v,
     userModel state !! rewrite_pronouns text = Some v ->
     let subject := rewrite_pronouns text in
     let result := executeMessage now state (AddReminderNoTimeMessage text) in
     snd result = Some (scheduled_reply subject v) /\
     snd result <> Some (ask_reply subject) /\
     reminders (fst result) = (reminders state ++
       [ {| reminder_id := nextId state; reminder_date := date_after now v;
            reminder_text := subject;
            reminder_timeout :=
              {| timeout_origin := timer_add_reminder_no_time;
                 timeout_delay := num_mul v (Num 1000);
                 timeout_id := nextId state; timeout_text := Some subject;
                 timeout_seconds := v |} |} ])%list).
Proof.
  intros Hr. apply reachable_invariant in Hr as [_ _ Hm].
  split; [exact Hm|].
  intros now text v Hmem. cbn zeta. unfold executeMessage; cbn [executeMessage_with].
  unfold case_add_reminder_no_time. cbn [userModel set_dialogHistory set_nextId].
  rewrite Hmem. rewrite (positive_number_truthy v (Hm _ _ Hmem)). cbn.
  repeat split. unfold scheduled_reply, ask_reply. cbn. discriminate.
Qed.

Lemma remembered_durations_are_positive_witness :
  let state := run_commands 0 initial_state
                 [ AddReminderNoTimeMessage "homework";
                   Time (Num 20) TimeUnits.seconds;
                   Confirm true ] in
  reachable state /\
  userModel state !! rewrite_pronouns "homework" = Some (Num 20) /\
  positive_number (Num 20) /\
  snd (executeMessage 7 state (AddReminderNoTimeMessage "homework"))
    = Some "Ok, I will remind you about homework in 20 seconds.".
Proof.
  intros state.
  assert (reachable state) as Hr.
  { apply reachable_run_commands; [apply reachable_initial|].
    repeat apply Forall_cons_2; [| | |apply Forall_nil_2].
    - apply (parseMessage_parser_built "remind me about my homework").
      vm_compute. reflexivity.
    - apply (parseMessage_parser_built "20 seconds"). vm_compute. reflexivity.
    - apply (parseMessage_parser_built "yes"). vm_compute. reflexivity. }
  assert (userModel state !! rewrite_pronouns "homework" = Some (Num 20)) as Hmem
    by (vm_compute; reflexivity).
  destruct (remembered_durations_are_positive state Hr) as [Hpos Hschedule].
  split; [exact Hr|]. split; [exact Hmem|]. split; [exact (Hpos _ _ Hmem)|].
  exact (proj1 (Hschedule 7 "homework" (Num 20) Hmem)).
Defined.

End Reachable.

(** ** Reminder ids *)

Section ReminderIds.

Lemma reminder_ids_snoc state r :
  List.map reminder_id (reminders state ++ [r]) = reminder_ids state ++ [reminder_id r].
Proof. unfold reminder_ids. now rewrite List.map_app. Qed.

Lemma NoDup_map_filter {A B} (f : A -> B) (p : A -> bool) (l : list A) :
  NoDup (List.map f l) -> NoDup (List.map f (List.filter p l)).
Proof.
  induction l as [|x l IH]; cbn; [auto|].
  intros Hnd. apply NoDup_cons in Hnd as [Hx Hl].
  destruct (p x); cbn; [|auto].
  apply NoDup_cons. split; [|auto].
  intros Hin. apply Hx.
  apply list_elem_of_In, List.in_map_iff in Hin as (y & <- & Hy).
  apply List.filter_In in Hy as [Hy _].
  apply list_elem_of_In, List.in_map, Hy.
Qed.

Lemma in_remove_first {A} (p : A -> bool) (l : list A) x :
  List.In x (remove_first p l) -> List.In x l.
Proof.
  induction l as [|y l IH]; cbn; [auto|].
  destruct (p y); cbn; [auto|]. intros [-> | H]; auto.
Qed.

Lemma NoDup_map_remove_first {A B} (f : A -> B) (p : A -> bool) (l : list A) :
  NoDup (List.map f l) -> NoDup (List.map f (remove_first p l)).
Proof.
  induction l as [|x l IH]; cbn; [auto|].
  intros Hnd. apply NoDup_cons in Hnd as [Hx Hl].
  destruct (p x); cbn; [auto|].
  apply NoDup_cons. split; [|auto].
  intros Hin. apply Hx.
  apply list_elem_of_In, List.in_map_iff in Hin as (y & <- & Hy).
  apply list_elem_of_In, List.in_map. eapply in_remove_first, Hy.
Qed.

(** In a state of a session the counter is a number that no active
    reminder and no dialog slot has as its id yet. *)
Lemma counter_is_fresh state :
  reachable state ->
  exists n, nextId state = Num n /\ 1 <= n /\ Num n ∉ reminder_ids state.
Proof.
  intros Hr. apply reachable_invariant in Hr as [(n & Hn & H1 & Hids & _) _ _].
  exists n. repeat split; [exact Hn | exact H1 |].
  intros Hin. apply list_elem_of_In, List.in_map_iff in Hin as (r & E & Hin).
  rewrite Forall_forall in Hids. apply list_elem_of_In, Hids in Hin as (i & Hi & Hlt).
  rewrite Hi in E. injection E as ->. lia.
Qed.

(** The counter starts at [1]; a command moves it up by one or leaves
    it, and a timer callback leaves it. *)
Lemma counter_is_monotonic now state message :
  reachable state ->
  exists n n', nextId state = Num n /\
    nextId (fst (executeMessage now state message)) = Num n' /\
    n <= n' <= n + 1.
Proof.
  intros Hr. apply reachable_invariant in Hr as [(n & Hn & _) _ _].
  exists n. unfold executeMessage.
  destruct message as [ | text q u | text | | | id | q u | c | ]; cbn [executeMessage_with].
  - exists n. cbn. split; [exact Hn|]. split; [exact Hn | lia].
  - exists (n + 1). cbn. rewrite Hn. cbn. repeat split; lia.
  - exists (n + 1). unfold case_add_reminder_no_time.
    destruct (_ !! _) as [secs|]; [destruct (negb (num_truthy secs))|]; cbn;
      rewrite Hn; cbn; repeat split; lia.
  - exists n. unfold case_list_reminders. destruct (reminders state); cbn;
      (split; [exact Hn|]; split; [exact Hn | lia]).
  - exists n. cbn. split; [exact Hn|]. split; [exact Hn | lia].
  - exists n. unfold case_clear_reminder. destruct (List.find _ _); cbn;
      (split; [exact Hn|]; split; [exact Hn | lia]).
  - exists n. unfold case_time.
    destruct (_ !! _) as [info|]; [|cbn; split; [exact Hn|]; split; [exact Hn | lia]].
    cbn [info_text]. destruct (info_text info) as [t|]; [destruct (str_truthy t)|]; cbn;
      (split; [exact Hn|]; split; [exact Hn | lia]).
  - exists n. unfold case_confirm.
    destruct (_ !! _) as [info|]; [|cbn; split; [exact Hn|]; split; [exact Hn | lia]].
    destruct (info_text info) as [t|], (info_unit info) as [u|],
             (info_quantity info) as [q|]; cbn;
      try (split; [exact Hn|]; split; [exact Hn | lia]).
    destruct (str_truthy t && num_truthy q); [destruct c|]; cbn;
      (split; [exact Hn|]; split; [exact Hn | lia]).
  - exists n. cbn. split; [exact Hn|]. split; [exact Hn | lia].
Qed.

Lemma confirm_keeps_reminders now state c :
  reminders (fst (executeMessage now state (Confirm c))) = reminders state.
Proof.
  unfold executeMessage; cbn [executeMessage_with]. unfold case_confirm.
  destruct (_ !! _) as [info|]; [|reflexivity].
  destruct (info_text info) as [t|], (info_unit info) as [u|],
           (info_quantity info) as [q|]; try reflexivity.
  destruct (str_truthy t && num_truthy q); [destruct c|]; reflexivity.
Qed.

(** Every command but a time specification keeps the ids of the active
    reminders distinct: the two add-reminder commands take a fresh id
    from the counter, the others only remove reminders. *)
Lemma ids_stay_unique_without_time now state message :
  reachable state ->
  (forall quantity unit, message <> Time quantity unit) ->
  NoDup (reminder_ids state) ->
  NoDup (reminder_ids (fst (executeMessage now state message))).
Proof.
  intros Hr Hnot Hnd.
  destruct (counter_is_fresh state Hr) as (n & Hn & _ & Hfresh).
  assert (NoDup (reminder_ids state ++ [nextId state])) as Hsnoc.
  { rewrite Hn. apply NoDup_app. repeat split; [exact Hnd | | apply NoDup_singleton].
    intros x Hx Hin. apply list_elem_of_singleton in Hin as ->. contradiction. }
  unfold executeMessage, reminder_ids.
  destruct message as [ | text q u | text | | | id | q u | c | ]; cbn [executeMessage_with].
  - exact Hnd.
  - cbn. rewrite reminder_ids_snoc. exact Hsnoc.
  - unfold case_add_reminder_no_time.
    destruct (_ !! _) as [secs|]; [destruct (negb (num_truthy secs))|]; cbn;
      [exact Hnd | rewrite reminder_ids_snoc; exact Hsnoc | exact Hnd].
  - unfold case_list_reminders. destruct (reminders state) eqn:E; cbn; rewrite E;
      unfold reminder_ids in Hnd; rewrite E in Hnd; exact Hnd.
  - cbn. apply NoDup_nil_2.
  - unfold case_clear_reminder. destruct (List.find _ _); cbn; [|exact Hnd].
    now apply NoDup_map_remove_first.
  - now destruct (Hnot q u).
  - change (NoDup (List.map reminder_id
                     (reminders (fst (executeMessage now state (Confirm c)))))).
    rewrite confirm_keeps_reminders. exact Hnd.
  - exact Hnd.
Qed.

Lemma ids_stay_unique_after_timeout t state :
  NoDup (reminder_ids state) -> NoDup (reminder_ids (fst (run_timeout t state))).
Proof. apply NoDup_map_filter. Qed.

End ReminderIds.

(** ** The parser always builds a command *)

Section ParserTotal.

Lemma matches_keeps_groups r w caps caps' :
  matches r w caps caps' ->
  forall name, is_Some (caps !! name) -> is_Some (caps' !! name).
Proof.
  induction 1 as
    [ caps | c h caps Hc | h caps Hh | h caps Hh
    | a b w1 w2 caps1 caps2 caps3 Ma IHa Mb IHb
    | a b w caps caps' Ma IHa | a b w caps caps' Mb IHb
    | a caps | a w1 w2 caps1 caps2 caps3 Hne Ma IHa Ms IHs
    | a caps | a w caps caps' Hne Ma IHa
    | name' a w caps caps' Ma IHa ];
    intros name Hname; auto.
  apply lookup_insert_is_Some'. right. auto.
Qed.

Lemma matches_required_groups r w caps caps' :
  matches r w caps caps' ->
  forall name, name ∈ required_groups r -> is_Some (caps' !! name).
Proof.
  induction 1 as
    [ caps | c h caps Hc | h caps Hh | h caps Hh
    | a b w1 w2 caps1 caps2 caps3 Ma IHa Mb IHb
    | a b w caps caps' Ma IHa | a b w caps caps' Mb IHb
    | a caps | a w1 w2 caps1 caps2 caps3 Hne Ma IHa Ms IHs
    | a caps | a w caps caps' Hne Ma IHa
    | name' a w caps caps' Ma IHa ];
    intros name Hname; cbn [required_groups] in Hname;
    try (now apply elem_of_nil in Hname).
  - apply elem_of_app in Hname as [Hname | Hname]; [|auto].
    eapply matches_keeps_groups; [exact Mb | auto].
  - apply lookup_insert_is_Some'. apply elem_of_cons in Hname as [-> | Hname]; auto.
Qed.

Lemma last_char_append d (a b : string) :
  last_char d (String.append a b) = last_char (last_char d a) b.
Proof.
  revert d. induction a as [|c a IH]; intros d; [reflexivity|].
  rewrite append_cons. cbn [last_char]. apply IH.
Qed.

Lemma last_char_cons d c (s : string) :
  last_char d (String c s) = last_char None (String c s).
Proof. reflexivity. Qed.

(** A trimmed string does not end in a blank. *)
Lemma trim_end_last s c :
  last_char None (trim_end s) = Some c -> is_blank c = false.
Proof.
  induction s as [|x s IH]; cbn [trim_end]; [discriminate|].
  destruct (trim_end s) as [|y r] eqn:E.
  - destruct (is_blank x) eqn:Hx; cbn; [discriminate|]. now intros [= <-].
  - cbn [last_char] in *. exact IH.
Qed.

Lemma trim_last s c : last_char None (trim s) = Some c -> is_blank c = false.
Proof. apply trim_end_last. Qed.

Lemma same_char_blank h : same_char h " " = true -> h = " "%char.
Proof.
  destruct h as [[] [] [] [] [] [] [] []]; vm_compute; intros H;
    first [reflexivity | discriminate].
Qed.

Ltac blanks :=
  repeat match goal with
  | H : same_char _ " " = true |- _ => apply same_char_blank in H; subst
  end.

Lemma remind_me_about_ends_blank w caps caps' d :
  matches remind_me_about w caps caps' -> last_char d w = Some " "%char.
Proof.
  unfold remind_me_about. cbn [seqs alts lit]. intros H.
  invert_matches; blanks; reflexivity.
Qed.

Lemma articles_end_blank w caps caps' :
  matches (Star article) w caps caps' ->
  forall d, last_char d w = d \/ last_char d w = Some " "%char.
Proof.
  remember (Star article) as r eqn:Er.
  induction 1 as [ | | | | | | | | a w1 w2 c1 c2 c3 Hne Ma _ Ms IHs | | | ];
    try discriminate; intros d; [now left|].
  injection Er as ->. right. rewrite last_char_append.
  assert (forall d', last_char d' w1 = Some " "%char) as Hw1.
  { intros d'. unfold article in Ma. cbn [seqs alts lit] in Ma.
    invert_matches; blanks; reflexivity. }
  rewrite Hw1. destruct (IHs eq_refl (Some " "%char)) as [-> | ->]; reflexivity.
Qed.

(** On a trimmed input the text group of the pattern of the add-reminder
    command without a time always takes part in the match: it stays out
    only when nothing follows the blank that ends the fixed part. *)
Lemma no_time_text_defined raw groups :
  matches add_reminder_no_time_pattern (trim raw) ∅ groups ->
  is_Some (groups !! "text").
Proof.
  unfold add_reminder_no_time_pattern. cbn [seqs]. intros M.
  inversion M as [| | | | a b w1 w23 c1 c2 c3 M1 M23 | | | | | | |]; subst.
  inversion M23 as [| | | | a b w2 w3 c1 c2' c3 M2 M3 | | | | | | |]; subst.
  inversion M3 as [| | | | | | | | | a c | a w c c' Hne Mg |]; subst.
  - exfalso.
    assert (last_char None (trim raw) = Some " "%char) as Hlast.
    { match goal with H : String.append _ _ = trim raw |- _ => rewrite <- H end.
      rewrite !last_char_append. cbn [last_char].
      rewrite (remind_me_about_ends_blank _ _ _ None M1).
      destruct (articles_end_blank _ _ _ M2 (Some " "%char)) as [-> | ->]; reflexivity. }
    apply trim_last in Hlast. discriminate.
  - inversion Mg; subst. apply lookup_insert_is_Some'. now left.
Qed.

Ltac required M name :=
  let H := fresh "Hgroup" in
  assert (is_Some (_ !! name)) as [? H]
    by (apply (matches_required_groups _ _ _ _ M name);
        apply list_elem_of_In; cbv; tauto);
  rewrite H.

Lemma intents_build raw i groups :
  i ∈ intents -> first_match (regexps i) (trim raw) = Some groups ->
  is_Some (func i groups).
Proof.
  intros Hi Hm. apply first_match_sound in Hm as (r & Hr & M).
  unfold intents in Hi.
  repeat (apply elem_of_cons in Hi as [-> | Hi]); try (now apply elem_of_nil in Hi);
    cbn [regexps func] in Hr |- *; try (eexists; reflexivity);
    repeat (apply elem_of_cons in Hr as [-> | Hr]); try (now apply elem_of_nil in Hr).
  - required M "quantity". required M "text". required M "unit". eexists; reflexivity.
  - required M "quantity". required M "text". required M "unit". eexists; reflexivity.
  - destruct (no_time_text_defined _ _ M) as [t ->]. eexists; reflexivity.
  - required M "id". eexists; reflexivity.
  - required M "quantity". required M "unit". eexists; reflexivity.
Qed.

Lemma createParser_total table raw :
  (forall i groups, i ∈ table ->
     first_match (regexps i) (trim raw) = Some groups -> is_Some (func i groups)) ->
  is_Some (createParser table fallback raw).
Proof.
  induction table as [|i table IH]; intros Hbuild; cbn [createParser].
  - eexists; reflexivity.
  - destruct (first_match (regexps i) (trim raw)) as [groups|] eqn:E.
    + apply (Hbuild i groups); [left | exact E].
    + apply IH. intros i' groups Hi'. apply Hbuild. now right.
Qed.

(** Every inbound frame is parsed to a command. *)
Lemma parseMessage_total rawMessage : is_Some (parseMessage rawMessage).
Proof.
  apply createParser_total. intros i groups Hi. now apply intents_build.
Qed.

(** The handler sends exactly one frame, a string, for every inbound
    frame. *)
Lemma on_message_replies_once now state rawMessage :
  exists state' reply, on_message now state rawMessage = Some (state', [Some reply]).
Proof.
  unfold on_message. destruct (parseMessage_total rawMessage) as [message ->]. cbn.
  destruct (executeMessage_returns now state message) as (state' & reply & ->).
  exists state', reply. reflexivity.
Qed.

End ParserTotal.

(** * Further properties of the code *)

(** ** Tokens through the normalizer *)

Section TokenValues.

(** X1: a token of the unit group is parsed to the unit it names,
    whatever its case and with or without the plural [s]. *)
Theorem parseUnit_names_the_unit u caps caps' :
  matches unit_pattern u caps caps' ->
  (toLowerCase u ∈ ["second"; "seconds"] /\ parseUnit u = TimeUnits.seconds) \/
  (toLowerCase u ∈ ["minute"; "minutes"] /\ parseUnit u = TimeUnits.minutes) \/
  (toLowerCase u ∈ ["hour"; "hours"] /\ parseUnit u = TimeUnits.hours).
Proof.
  intros M. apply matches_unit in M. unfold unit_token in M. unfold parseUnit.
  repeat (apply elem_of_cons in M as [-> | M]); try (now apply elem_of_nil in M).
  - left. split; [set_solver | reflexivity].
  - left. split; [set_solver | reflexivity].
  - right; left. split; [set_solver | reflexivity].
  - right; left. split; [set_solver | reflexivity].
  - right; right. split; [set_solver | reflexivity].
  - right; right. split; [set_solver | reflexivity].
Qed.

Lemma parseUnit_names_the_unit_witness :
  matches unit_pattern "HOURs" ∅ ∅ /\
  ((toLowerCase "HOURs" ∈ ["second"; "seconds"] /\ parseUnit "HOURs" = TimeUnits.seconds) \/
   (toLowerCase "HOURs" ∈ ["minute"; "minutes"] /\ parseUnit "HOURs" = TimeUnits.minutes) \/
   (toLowerCase "HOURs" ∈ ["hour"; "hours"] /\ parseUnit "HOURs" = TimeUnits.hours)).
Proof.
  assert (matches unit_pattern "HOURs" ∅ ∅) as M
    by (apply exec_sound; vm_compute; reflexivity).
  split; [exact M|]. exact (parseUnit_names_the_unit "HOURs" ∅ ∅ M).
Defined.





(** X3: on a unit token the current pipeline and the earlier routine
    compute the same number of seconds, except for minutes, where the
    current one gives 3600 times the earlier one. *)
Theorem current_and_earlier_normalizer q u caps caps' :
  matches unit_pattern u caps caps' ->
  convertDurationToSeconds (parseQuantity q) (parseUnit u) =
    match parseUnit u with
    | TimeUnits.minutes => num_mul (parseTimeWithUnitAsSeconds q u) (Num 3600)
    | _ => parseTimeWithUnitAsSeconds q u
    end.
Proof.
  intros M. apply matches_unit in M. unfold unit_token in M.
  unfold parseTimeWithUnitAsSeconds, parseUnit.
  fold (parseQuantity q).
  repeat (apply elem_of_cons in M as [-> | M]); try (now apply elem_of_nil in M);
    reflexivity.
Qed.

Lemma current_and_earlier_normalizer_witness :
  matches unit_pattern "minutes" ∅ ∅ /\
  parseTimeWithUnitAsSeconds "5" "minutes" = Num 300 /\
  convertDurationToSeconds (parseQuantity "5") (parseUnit "minutes")
    = num_mul (parseTimeWithUnitAsSeconds "5" "minutes") (Num 3600).
Proof.
  assert (matches unit_pattern "minutes" ∅ ∅) as M
    by (apply exec_sound; vm_compute; reflexivity).
  split; [exact M|]. split; [reflexivity|].
  exact (current_and_earlier_normalizer "5" "minutes" ∅ ∅ M).
Defined.

Lemma digits_of_uint_acc d : forall acc,
  digits_val (Zpos acc) (NilEmpty.string_of_uint d) = Zpos (Pos.of_uint_acc d acc).
Proof.
  induction d; intros acc; cbn [NilEmpty.string_of_uint digits_val Pos.of_uint_acc];
    [reflexivity | rewrite <- IHd; f_equal; vm_compute (digit_val _); lia ..].
Qed.

Lemma digits_of_uint d :
  digits_val 0 (NilEmpty.string_of_uint d) = Z.of_N (Pos.of_uint d).
Proof.
  induction d; cbn [NilEmpty.string_of_uint digits_val Pos.of_uint];
    [reflexivity | exact IHd | apply digits_of_uint_acc ..].
Qed.

Lemma uint_all_digits d : all_chars is_digit (NilEmpty.string_of_uint d) = true.
Proof. induction d; cbn [NilEmpty.string_of_uint all_chars]; auto. Qed.

Lemma Number_of_printed n : 0 <= n -> Number (num_to_string (Num n)) = Num n.
Proof.
  intros Hn. cbn [num_to_string]. unfold Z_to_string, Number.
  destruct n as [|p|p]; [reflexivity | | lia].
  cbn [Z.to_int NilZero.string_of_int].
  assert (Pos.to_uint p <> Decimal.Nil) as Hnil by apply DecimalPos.Unsigned.to_uint_nonnil.
  assert (NilZero.string_of_uint (Pos.to_uint p)
          = NilEmpty.string_of_uint (Pos.to_uint p)) as ->
    by (destruct (Pos.to_uint p); [contradiction | reflexivity ..]).
  rewrite uint_all_digits, digits_of_uint, DecimalPos.Unsigned.of_to. reflexivity.
Qed.

End TokenValues.

(** ** What the executor leaves alone *)

Section Frames.

Lemma case_confirm_fields convert state c :
  let state' := fst (case_confirm convert state c) in
  reminders state' = reminders state /\ nextId state' = nextId state /\
  dialogHistory state' = dialogHistory state.
Proof.
  unfold case_confirm. destruct (_ !! _) as [info|]; [|now cbn].
  destruct (info_text info) as [t|], (info_unit info) as [u|],
           (info_quantity info) as [q|]; try now cbn.
  destruct (str_truthy t && num_truthy q); [destruct c|]; now cbn.
Qed.

Lemma confirm_state now state c :
  fst (executeMessage now state (Confirm c)) = fst (case_confirm convertDurationToSeconds state c).
Proof.
  unfold executeMessage; cbn [executeMessage_with].
  destruct (case_confirm _ state c) as [state' [reply|]]; reflexivity.
Qed.

Lemma memory_after now state message :
  userModel (fst (executeMessage now state message)) = userModel state \/
  message = Confirm true /\
  exists t secs,
    userModel (fst (executeMessage now state message)) = <[t := secs]> (userModel state).
Proof.
  destruct message as [ | text q u | text | | | id | q u | c | ];
    try rewrite confirm_state; unfold executeMessage; cbn [executeMessage_with];
    try (left; reflexivity).
  - left. unfold case_add_reminder_no_time.
    destruct (_ !! _) as [secs|]; [destruct (negb (num_truthy secs))|]; reflexivity.
  - left. unfold case_list_reminders. destruct (reminders state); reflexivity.
  - left. unfold case_clear_reminder. destruct (List.find _ _); reflexivity.
  - left. unfold case_time. destruct (_ !! _) as [info|]; [|reflexivity].
    cbn [info_text]. destruct (info_text info) as [t|]; [destruct (str_truthy t)|];
      reflexivity.
  - unfold case_confirm.
    destruct (_ !! _) as [info|]; [|left; reflexivity].
    destruct (info_text info) as [t|], (info_unit info) as [u|],
             (info_quantity info) as [q|]; try (left; reflexivity).
    destruct (str_truthy t && num_truthy q); [destruct c|]; try (left; reflexivity).
    right. split; [reflexivity|]. eexists _, _. reflexivity.
Qed.

(** X4: the duration memory is written by an accepted confirmation and
    by nothing else: every other command, and every timer callback,
    leaves it as it is. *)
Theorem memory_written_only_by_accepted_confirm now state message :
  message <> Confirm true ->
  userModel (fst (executeMessage now state message)) = userModel state /\
  forall t, userModel (fst (run_timeout t state)) = userModel state.
Proof.
  intros Hne. split; [|reflexivity].
  destruct (memory_after now state message) as [E | [E _]]; [exact E | contradiction].
Qed.

Lemma memory_written_only_by_accepted_confirm_witness :
  let state := set_userModel {[ "homework" := Num 20 ]} initial_state in
  let message := AddReminderMessage "homework" (Num 5) TimeUnits.hours in
  message <> Confirm true /\
  userModel (fst (executeMessage 0 state message)) = userModel state.
Proof.
  intros state message.
  assert (message <> Confirm true) as Hne by discriminate.
  split; [exact Hne|].
  exact (proj1 (memory_written_only_by_accepted_confirm 0 state message Hne)).
Defined.

(** X5: the duration memory never forgets: a subject that it holds is
    still held after any command. *)
Theorem memory_never_forgets now state message key :
  is_Some (userModel state !! key) ->
  is_Some (userModel (fst (executeMessage now state message)) !! key).
Proof.
  intros Hkey.
  destruct (memory_after now state message) as [-> | [_ (t & secs & ->)]]; [exact Hkey|].
  apply lookup_insert_is_Some'. now right.
Qed.

Lemma memory_never_forgets_witness :
  let state := fst (executeMessage 0
                 (fst (executeMessage 0
                    (set_userModel {[ "homework" := Num 20 ]} initial_state)
                    (AddReminderMessage "piano" (Num 2) TimeUnits.hours)))
                 (Confirm true)) in
  is_Some (userModel (set_userModel {[ "homework" := Num 20 ]} initial_state) !! "homework") /\
  is_Some (userModel state !! "homework") /\
  userModel state !! "piano" = Some (Num 7200).
Proof.
  intros state.
  assert (is_Some (userModel (set_userModel {[ "homework" := Num 20 ]} initial_state)
                     !! "homework")) as H0 by (eexists; reflexivity).
  split; [exact H0|]. split; [|vm_compute; reflexivity].
  apply memory_never_forgets. apply memory_never_forgets. exact H0.
Defined.

Lemma history_after now state message :
  dialogHistory (fst (executeMessage now state message)) = dialogHistory state \/
  (exists info,
     dialogHistory (fst (executeMessage now state message)) = dialogHistory state ++ [info]) \/
  (exists old new,
     dialogHistory state !! (length (dialogHistory state) - 1)%nat = Some old /\
     info_id new = info_id old /\ info_text new = info_text old /\
     dialogHistory (fst (executeMessage now state message))
       = <[(length (dialogHistory state) - 1)%nat := new]> (dialogHistory state)).
Proof.
  destruct message as [ | text q u | text | | | id | q u | c | ];
    try (rewrite confirm_state; left; apply case_confirm_fields);
    unfold executeMessage; cbn [executeMessage_with];
    try (left; reflexivity).
  - right; left. eexists. reflexivity.
  - right; left. unfold case_add_reminder_no_time.
    destruct (_ !! _) as [secs|]; [destruct (negb (num_truthy secs))|];
      eexists; reflexivity.
  - left. unfold case_list_reminders. destruct (reminders state); reflexivity.
  - left. unfold case_clear_reminder. destruct (List.find _ _); reflexivity.
  - unfold case_time. destruct (_ !! _) as [info|] eqn:Hlast; [|left; reflexivity].
    right; right.
    exists info, {| info_id := info_id info; info_quantity := Some q;
                    info_unit := Some u; info_text := info_text info |}.
    repeat split. cbn [info_text].
    destruct (info_text info) as [t|]; [destruct (str_truthy t)|]; reflexivity.
Qed.

(** X6: the dialog history is only appended to: after any command the
    ids and the subjects of the slots it had are still there, in the same
    order, and at most one slot is new. *)
Theorem history_is_append_only now state message :
  let history := dialogHistory state in
  let history' := dialogHistory (fst (executeMessage now state message)) in
  (info_id <$> history) `prefix_of` (info_id <$> history') /\
  (info_text <$> history) `prefix_of` (info_text <$> history') /\
  (length history' <= length history + 1)%nat.
Proof.
  cbn zeta.
  destruct (history_after now state message)
    as [-> | [[info ->] | (old & new & Hold & Hid & Htext & ->)]].
  - repeat split; [reflexivity | reflexivity | lia].
  - rewrite !fmap_app, length_app. cbn.
    repeat split; [now apply prefix_app_r | now apply prefix_app_r | lia].
  - rewrite !list_fmap_insert, length_insert, Hid, Htext.
    rewrite !list_insert_id by (rewrite list_lookup_fmap, Hold; reflexivity).
    repeat split; [reflexivity | reflexivity | lia].
Qed.

End Frames.

(** ** Ids and the dialog *)

Section Dialog.

(** X7: in every state of a session the counter is an integer from [1]
    on, and the id of every active reminder and of every dialog slot is an
    integer from [1] up to, but not including, the counter. *)
Theorem ids_come_from_the_counter state :
  reachable state ->
  exists n, nextId state = Num n /\ 1 <= n /\
    (forall r, r ∈ reminders state -> id_below n (reminder_id r)) /\
    (forall info, info ∈ dialogHistory state -> id_below n (info_id info)).
Proof.
  intros Hr. apply reachable_invariant in Hr as [(n & Hn & H1 & Hrs & Hh) _ _].
  exists n. rewrite Forall_forall in Hrs. rewrite Forall_forall in Hh. auto.
Qed.

Lemma ids_come_from_the_counter_witness :
  let state := run_commands 0 initial_state
                 [ AddReminderNoTimeMessage "homework";
                   Time (Num 20) TimeUnits.seconds ] in
  reachable state /\
  exists n, nextId state = Num n /\ 1 <= n /\
    (forall r, r ∈ reminders state -> id_below n (reminder_id r)) /\
    (forall info, info ∈ dialogHistory state -> id_below n (info_id info)).
Proof.
  intros state.
  assert (reachable state) as Hr.
  { apply reachable_run_commands; [apply reachable_initial|].
    repeat apply Forall_cons_2; [| |apply Forall_nil_2].
    - apply (parseMessage_parser_built "remind me about my homework").
      vm_compute. reflexivity.
    - apply (parseMessage_parser_built "20 seconds"). vm_compute. reflexivity. }
  split; [exact Hr|]. exact (ids_come_from_the_counter state Hr).
Defined.

(** X8: no command other than a time specification, and no timer
    callback, makes two active reminders share an id: from a state of a
    session whose active ids are distinct they lead to such a state. *)
Theorem only_time_can_share_an_id now state message :
  reachable state ->
  NoDup (reminder_ids state) ->
  (forall quantity unit, message <> Time quantity unit) ->
  NoDup (reminder_ids (fst (executeMessage now state message))) /\
  forall t, NoDup (reminder_ids (fst (run_timeout t state))).
Proof.
  intros Hr Hnd Hnot. split.
  - now apply ids_stay_unique_without_time.
  - intros t. now apply ids_stay_unique_after_timeout.
Qed.

Lemma only_time_can_share_an_id_witness :
  let state := run_commands 0 initial_state
                 [ AddReminderMessage "homework" (Num 5) TimeUnits.seconds ] in
  let message := AddReminderMessage "homework" (Num 5) TimeUnits.seconds in
  reachable state /\ NoDup (reminder_ids state) /\
  (forall quantity unit, message <> Time quantity unit) /\
  reminder_ids (fst (executeMessage 0 state message)) = [Num 1; Num 2] /\
  NoDup (reminder_ids (fst (executeMessage 0 state message))).
Proof.
  intros state message.
  assert (reachable state) as Hr.
  { apply reachable_run_commands; [apply reachable_initial|].
    apply Forall_cons_2; [|apply Forall_nil_2].
    apply (parseMessage_parser_built "remind me about my homework in 5 seconds").
    vm_compute. reflexivity. }
  assert (NoDup (reminder_ids state)) as Hnd
    by (apply NoDup_singleton).
  assert (forall quantity unit, message <> Time quantity unit) as Hnot by discriminate.
  split; [exact Hr|]. split; [exact Hnd|]. split; [exact Hnot|].
  split; [reflexivity|].
  exact (proj1 (only_time_can_share_an_id 0 state message Hr Hnd Hnot)).
Defined.

Lemma time_on_slot now state slot quantity unit :
  last (dialogHistory state) = Some slot ->
  let secs := convertDurationToSeconds quantity unit in
  let state' := fst (executeMessage now state (Time quantity unit)) in
  snd (executeMessage now state (Time quantity unit))
    = Some (scheduled_reply (String.append "your " (opt_to_string (info_text slot))) secs) /\
  nextId state' = nextId state /\
  reminders state' =
    if opt_truthy str_truthy (info_text slot)
    then reminders state ++
      [ {| reminder_id := info_id slot; reminder_date := date_after now secs;
           reminder_text := opt_to_string (info_text slot);
           reminder_timeout :=
             {| timeout_origin := timer_time; timeout_delay := num_mul secs (Num 1000);
                timeout_id := info_id slot; timeout_text := info_text slot;
                timeout_seconds := secs |} |} ]
    else reminders state.
Proof.
  intros Hlast. cbn zeta. unfold executeMessage; cbn [executeMessage_with].
  unfold case_time. rewrite last_index_lookup, Hlast. cbn [info_text info_id].
  destruct (info_text slot) as [t|]; [destruct (str_truthy t) eqn:Ht|]; cbn;
    rewrite ?Ht; repeat split; reflexivity.
Qed.

(** X9: a time specification schedules under the id of the last dialog
    slot whether or not that slot was scheduled before: when a reminder
    with the id of the slot is still active, the active list then holds
    the id twice. *)
Theorem time_on_a_scheduled_slot_shares_its_id now state slot subject quantity unit :
  last (dialogHistory state) = Some slot ->
  info_text slot = Some subject -> str_truthy subject = true ->
  info_id slot ∈ reminder_ids state ->
  let state' := fst (executeMessage now state (Time quantity unit)) in
  reminder_ids state' = reminder_ids state ++ [info_id slot] /\
  ~ NoDup (reminder_ids state').
Proof.
  intros Hlast Htext Htruthy Hin. cbn zeta.
  destruct (time_on_slot now state slot quantity unit Hlast) as (_ & _ & Hrs).
  rewrite Htext in Hrs. cbn [opt_truthy] in Hrs. rewrite Htruthy in Hrs.
  assert (reminder_ids (fst (executeMessage now state (Time quantity unit)))
          = reminder_ids state ++ [info_id slot]) as E.
  { unfold reminder_ids at 1. rewrite Hrs, List.map_app. reflexivity. }
  split; [exact E|]. rewrite E. intros Hnd.
  apply NoDup_app in Hnd as (_ & Hdisj & _).
  apply (Hdisj _ Hin). left.
Qed.

Lemma time_on_a_scheduled_slot_shares_its_id_witness :
  let state := run_commands 0 initial_state
                 [ AddReminderNoTimeMessage "homework";
                   Time (Num 20) TimeUnits.seconds ] in
  let slot := {| info_id := Num 1; info_quantity := Some (Num 20);
                 info_unit := Some TimeUnits.seconds; info_text := Some "homework" |} in
  last (dialogHistory state) = Some slot /\
  info_text slot = Some "homework" /\ str_truthy "homework" = true /\
  info_id slot ∈ reminder_ids state /\
  reminder_ids (fst (executeMessage 0 state (Time (Num 30) TimeUnits.seconds)))
    = reminder_ids state ++ [info_id slot] /\
  ~ NoDup (reminder_ids (fst (executeMessage 0 state (Time (Num 30) TimeUnits.seconds)))).
Proof.
  intros state slot.
  assert (last (dialogHistory state) = Some slot) as Hlast by reflexivity.
  assert (info_text slot = Some "homework") as Htext by reflexivity.
  assert (str_truthy "homework" = true) as Htruthy by reflexivity.
  assert (info_id slot ∈ reminder_ids state) as Hin by (left).
  split; [exact Hlast|]. split; [exact Htext|]. split; [exact Htruthy|].
  split; [exact Hin|].
  exact (time_on_a_scheduled_slot_shares_its_id 0 state slot "homework"
           (Num 30) TimeUnits.seconds Hlast Htext Htruthy Hin).
Defined.

(** X10: the dialog of a reminder without a time.  When the memory does
    not hold the subject and the subject is not empty, the command asks
    for the duration and schedules nothing; the time specification that
    follows schedules exactly one reminder, under the id the counter had,
    with the converted duration, and moves nothing else in the list. *)
Theorem asked_duration_completes_the_reminder now now' state text quantity unit :
  str_truthy (rewrite_pronouns text) = true ->
  userModel state !! rewrite_pronouns text = None ->
  let subject := rewrite_pronouns text in
  let secs := convertDurationToSeconds quantity unit in
  let first := executeMessage now state (AddReminderNoTimeMessage text) in
  let second := executeMessage now' (fst first) (Time quantity unit) in
  snd first = Some (ask_reply subject) /\
  reminders (fst first) = reminders state /\
  snd second = Some (scheduled_reply (String.append "your " subject) secs) /\
  nextId (fst second) = num_add (nextId state) (Num 1) /\
  reminders (fst second) = reminders state ++
    [ {| reminder_id := nextId state; reminder_date := date_after now' secs;
         reminder_text := subject;
         reminder_timeout :=
           {| timeout_origin := timer_time; timeout_delay := num_mul secs (Num 1000);
              timeout_id := nextId state; timeout_text := Some subject;
              timeout_seconds := secs |} |} ].
Proof.
  intros Htruthy Hmem. cbn zeta.
  assert (executeMessage now state (AddReminderNoTimeMessage text) =
          ({| reminders := reminders state; nextId := num_add (nextId state) (Num 1);
              dialogHistory := dialogHistory state ++
                [ {| info_id := nextId state; info_quantity := None; info_unit := None;
                     info_text := Some (rewrite_pronouns text) |} ];
              userModel := userModel state |},
           Some (ask_reply (rewrite_pronouns text)))) as E.
  { unfold executeMessage; cbn [executeMessage_with]. unfold case_add_reminder_no_time.
    cbn [userModel set_dialogHistory set_nextId]. rewrite Hmem. reflexivity. }
  rewrite E. cbn [fst snd].
  split; [reflexivity|]. split; [reflexivity|].
  match goal with
  | |- context [executeMessage now' ?s _] =>
      destruct (time_on_slot now' s
                  {| info_id := nextId state; info_quantity := None; info_unit := None;
                     info_text := Some (rewrite_pronouns text) |} quantity unit)
        as (Hreply & Hnext & Hrs); [apply last_snoc|]
  end.
  cbn [info_text opt_to_string opt_truthy info_id] in Hreply, Hrs.
  rewrite Htruthy in Hrs.
  split; [exact Hreply|]. split; [exact Hnext | exact Hrs].
Qed.

Lemma asked_duration_completes_the_reminder_witness :
  str_truthy (rewrite_pronouns "walk with my dog") = true /\
  userModel initial_state !! rewrite_pronouns "walk with my dog" = None /\
  snd (executeMessage 0 initial_state (AddReminderNoTimeMessage "walk with my dog"))
    = Some "How long does your walk with your dog take?" /\
  snd (executeMessage 9
         (fst (executeMessage 0 initial_state (AddReminderNoTimeMessage "walk with my dog")))
         (Time (Num 2) TimeUnits.hours))
    = Some "Ok, I will remind you about your walk with your dog in 7200 seconds.".
Proof.
  assert (str_truthy (rewrite_pronouns "walk with my dog") = true) as Ht by reflexivity.
  assert (userModel initial_state !! rewrite_pronouns "walk with my dog" = None) as Hm
    by reflexivity.
  split; [exact Ht|]. split; [exact Hm|].
  destruct (asked_duration_completes_the_reminder 0 9 initial_state "walk with my dog"
              (Num 2) TimeUnits.hours Ht Hm) as (H1 & _ & H3 & _).
  split; [exact H1 | exact H3].
Defined.

(** X11: the time specification adds a reminder only if the last slot
    has a subject that is not empty.  On a slot with an empty subject
    (the pattern of the add-reminder command admits one) it answers as
    if it had scheduled, and the active list is as before. *)
Theorem time_without_subject_schedules_nothing now state slot quantity unit :
  last (dialogHistory state) = Some slot ->
  opt_truthy str_truthy (info_text slot) = false ->
  reminders (fst (executeMessage now state (Time quantity unit))) = reminders state /\
  snd (executeMessage now state (Time quantity unit))
    = Some (scheduled_reply (String.append "your " (opt_to_string (info_text slot)))
              (convertDurationToSeconds quantity unit)).
Proof.
  intros Hlast Hfalsy.
  destruct (time_on_slot now state slot quantity unit Hlast) as (Hreply & _ & Hrs).
  rewrite Hfalsy in Hrs. split; [exact Hrs | exact Hreply].
Qed.

Lemma time_without_subject_schedules_nothing_witness :
  let state := fst (executeMessage 0 initial_state
                      (AddReminderMessage "" (Num 5) TimeUnits.seconds)) in
  let slot := {| info_id := Num 1; info_quantity := Some (Num 5);
                 info_unit := Some TimeUnits.seconds; info_text := Some "" |} in
  parseMessage "remind me about  in 5 seconds"
    = Some (AddReminderMessage "" (Num 5) TimeUnits.seconds) /\
  last (dialogHistory state) = Some slot /\
  opt_truthy str_truthy (info_text slot) = false /\
  reminders (fst (executeMessage 0 state (Time (Num 9) TimeUnits.seconds))) = reminders state /\
  snd (executeMessage 0 state (Time (Num 9) TimeUnits.seconds))
    = Some "Ok, I will remind you about your  in 9 seconds.".
Proof.
  intros state slot.
  assert (last (dialogHistory state) = Some slot) as Hlast by reflexivity.
  assert (opt_truthy str_truthy (info_text slot) = false) as Hf by reflexivity.
  split; [vm_compute; reflexivity|]. split; [exact Hlast|]. split; [exact Hf|].
  exact (time_without_subject_schedules_nothing 0 state slot (Num 9) TimeUnits.seconds
           Hlast Hf).
Defined.

End Dialog.

(** ** The active list *)

Section ActiveList.

Lemma num_seq_Num a i : num_seq a (Num i) = true <-> a = Num i.
Proof.
  destruct a as [|z]; cbn; [split; discriminate|].
  rewrite Z.eqb_eq. split; [now intros -> | now intros [= ->]].
Qed.

Lemma find_none_all {A} (p : A -> bool) (l : list A) :
  (forall x, x ∈ l -> p x = false) -> List.find p l = None.
Proof.
  induction l as [|x l IH]; intros H; cbn; [reflexivity|].
  rewrite (H x) by left. apply IH. intros y Hy. apply H. now right.
Qed.

(** X12: clearing an id that no active reminder has is answered with
    the message that there is no such reminder, and nothing changes.  An
    id that is [NaN] is never found. *)
Theorem clear_of_an_unknown_id now state id :
  (forall r, r ∈ reminders state -> num_seq (reminder_id r) id = false) ->
  executeMessage now state (ClearReminderMessage id) =
    (state, Some (concat_all [ "There is no reminder with id "; num_to_string id; "." ])).
Proof.
  intros Hnone. unfold executeMessage; cbn [executeMessage_with].
  unfold case_clear_reminder. rewrite find_none_all by exact Hnone. reflexivity.
Qed.

Lemma clear_of_an_unknown_id_witness :
  let state := fst (executeMessage 0 initial_state
                      (AddReminderMessage "homework" (Num 5) TimeUnits.seconds)) in
  (forall r, r ∈ reminders state -> num_seq (reminder_id r) (Num 7) = false) /\
  executeMessage 0 state (ClearReminderMessage (Num 7)) =
    (state, Some "There is no reminder with id 7.").
Proof.
  intros state.
  assert (forall r, r ∈ reminders state -> num_seq (reminder_id r) (Num 7) = false) as Hnone.
  { intros r Hr. apply list_elem_of_singleton in Hr as ->. reflexivity. }
  split; [exact Hnone|].
  exact (clear_of_an_unknown_id 0 state (Num 7) Hnone).
Defined.

Lemma remove_first_unique (i : Z) (l : list Reminder) :
  NoDup (List.map reminder_id l) ->
  remove_first (fun r => num_seq (reminder_id r) (Num i)) l
    = List.filter (fun r => negb (num_seq (reminder_id r) (Num i))) l.
Proof.
  induction l as [|x l IH]; cbn; [reflexivity|].
  intros Hnd. apply NoDup_cons in Hnd as [Hx Hl].
  destruct (num_seq (reminder_id x) (Num i)) eqn:E; cbn.
  - apply num_seq_Num in E.
    clear IH. induction l as [|y l IH]; cbn; [reflexivity|].
    apply NoDup_cons in Hl as [_ Hl].
    destruct (num_seq (reminder_id y) (Num i)) eqn:E'; cbn.
    + apply num_seq_Num in E'. exfalso. apply Hx. rewrite E, <- E'. left.
    + f_equal. apply IH; [|exact Hl]. intros Hin. apply Hx. now right.
  - f_equal. now apply IH.
Qed.

Lemma find_some_in {A} (p : A -> bool) (l : list A) x :
  x ∈ l -> p x = true -> exists y, List.find p l = Some y /\ y ∈ l /\ p y = true.
Proof.
  induction l as [|z l IH]; intros Hin Hp; [now apply elem_of_nil in Hin|].
  cbn. destruct (p z) eqn:E.
  - exists z. repeat split; [left | exact E].
  - apply elem_of_cons in Hin as [-> | Hin]; [congruence|].
    destruct (IH Hin Hp) as (y & Hf & Hy & Hpy). exists y. repeat split; auto. now right.
Qed.

Lemma length_remove_first {A} (p : A -> bool) (l : list A) y :
  List.find p l = Some y -> (length (remove_first p l) + 1 = length l)%nat.
Proof.
  induction l as [|x l IH]; cbn; [discriminate|].
  destruct (p x); cbn; [lia|]. intros H. rewrite <- (IH H). lia.
Qed.

(** X13: clearing the id of an active reminder, when the active ids are
    distinct: the reply names the subject of that reminder, the reminder
    is gone from the list, every other reminder stays in its place, and
    counter, history and memory are as before. *)
Theorem clear_removes_the_reminder now state i :
  NoDup (reminder_ids state) ->
  Num i ∈ reminder_ids state ->
  let state' := fst (executeMessage now state (ClearReminderMessage (Num i))) in
  (exists r, r ∈ reminders state /\ reminder_id r = Num i /\
     snd (executeMessage now state (ClearReminderMessage (Num i)))
       = Some (concat_all [ "Ok, I will not remind you to "; reminder_text r; "." ])) /\
  reminders state' =
    List.filter (fun r => negb (num_seq (reminder_id r) (Num i))) (reminders state) /\
  (Num i ∉ reminder_ids state') /\
  (length (reminders state') + 1 = length (reminders state))%nat /\
  nextId state' = nextId state /\ dialogHistory state' = dialogHistory state /\
  userModel state' = userModel state.
Proof.
  intros Hnd Hin. cbn zeta.
  apply list_elem_of_In, List.in_map_iff in Hin as (r0 & Hid0 & Hr0).
  apply list_elem_of_In in Hr0.
  destruct (find_some_in (fun r => num_seq (reminder_id r) (Num i)) _ r0 Hr0)
    as (r & Hfind & Hr & Hp); [now apply num_seq_Num|].
  unfold executeMessage; cbn [executeMessage_with]. unfold case_clear_reminder.
  rewrite Hfind. cbn [fst snd reminders set_reminders nextId dialogHistory userModel].
  split; [exists r; repeat split; [exact Hr | now apply num_seq_Num]|].
  rewrite remove_first_unique by exact Hnd.
  split; [reflexivity|]. split.
  - unfold reminder_ids. cbn [reminders].
    intros Hin. apply list_elem_of_In, List.in_map_iff in Hin as (x & Hx & Hin).
    apply List.filter_In in Hin as [_ Hin]. apply negb_true_iff in Hin.
    apply num_seq_Num in Hx. congruence.
  - split; [|repeat split].
    rewrite <- remove_first_unique by exact Hnd.
    eapply length_remove_first, Hfind.
Qed.

Lemma clear_removes_the_reminder_witness :
  let state := run_commands 0 initial_state
                 [ AddReminderMessage "homework" (Num 5) TimeUnits.seconds;
                   AddReminderMessage "piano" (Num 9) TimeUnits.seconds ] in
  NoDup (reminder_ids state) /\ Num 1 ∈ reminder_ids state /\
  reminder_ids (fst (executeMessage 0 state (ClearReminderMessage (Num 1)))) = [Num 2] /\
  Num 1 ∉ reminder_ids (fst (executeMessage 0 state (ClearReminderMessage (Num 1)))).
Proof.
  intros state.
  assert (NoDup (reminder_ids state)) as Hnd.
  { apply NoDup_cons_2; [|apply NoDup_singleton].
    intros Hin. apply list_elem_of_singleton in Hin. discriminate. }
  assert (Num 1 ∈ reminder_ids state) as Hin by (left).
  split; [exact Hnd|]. split; [exact Hin|]. split; [reflexivity|].
  exact (proj1 (proj2 (proj2 (clear_removes_the_reminder 0 state 1 Hnd Hin)))).
Defined.

(** X14: after the command that clears all reminders, whatever the
    state was, the list command answers that there are no reminders and
    clearing any id answers that there is no such reminder; closing the
    connection leaves the same state as the command. *)
Theorem after_clearing_all now now' state id :
  let cleared := fst (executeMessage now state ClearAllRemindersMessage) in
  cleared = set_reminders [] state /\
  on_close state = cleared /\
  snd (executeMessage now state ClearAllRemindersMessage)
    = Some "Ok, I have cleared all of your reminders." /\
  executeMessage now' cleared ListRemindersMessage = (cleared, Some "You have no reminders.") /\
  executeMessage now' cleared (ClearReminderMessage id) =
    (cleared, Some (concat_all [ "There is no reminder with id "; num_to_string id; "." ])).
Proof. cbn zeta. repeat split. Qed.

(** X15: the list command changes nothing, and it answers that there
    are no reminders exactly when the active list is empty. *)
Theorem list_is_read_only now state :
  fst (executeMessage now state ListRemindersMessage) = state /\
  ((snd (executeMessage now state ListRemindersMessage) = Some "You have no reminders.")
   <-> (reminders state = [])).
Proof.
  unfold executeMessage; cbn [executeMessage_with]. unfold case_list_reminders.
  destruct (reminders state) as [|r rs].
  - split; [reflexivity|]. split; reflexivity.
  - split; [reflexivity|]. split; [|discriminate].
    cbn [snd]. unfold concat_all at 1. cbn [fold_right]. unfold nl at 1.
    rewrite append_cons. discriminate.
Qed.



End ActiveList.

(** ** Timer callbacks and the confirmation *)

Section Callbacks.

(** X17: the callback of a timer removes from the active list every
    reminder with its id, and only those (so when two reminders share the
    id, the first callback to run removes both); it leaves counter,
    history and memory as they are. *)
Theorem timeout_removes_its_reminders t state i :
  timeout_id t = Num i ->
  let state' := fst (run_timeout t state) in
  (forall r, r ∈ reminders state' <-> (r ∈ reminders state /\ reminder_id r <> Num i)) /\
  (Num i ∉ reminder_ids state') /\
  nextId state' = nextId state /\ dialogHistory state' = dialogHistory state /\
  userModel state' = userModel state.
Proof.
  intros Hid. cbn zeta. cbn [run_timeout fst reminders set_reminders nextId
                              dialogHistory userModel]. rewrite Hid.
  assert (forall r, r ∈ List.filter (fun r => negb (num_seq (reminder_id r) (Num i)))
                         (reminders state)
                    <-> (r ∈ reminders state /\ reminder_id r <> Num i)) as Hfilter.
  { intros r. rewrite !list_elem_of_In, List.filter_In, negb_true_iff.
    rewrite <- num_seq_Num. destruct (num_seq (reminder_id r) (Num i)); intuition congruence. }
  split; [exact Hfilter|]. split; [|repeat split].
  unfold reminder_ids. cbn [reminders]. intros Hin.
  apply list_elem_of_In, List.in_map_iff in Hin as (r & Hr & Hin).
  apply list_elem_of_In, Hfilter in Hin as [_ Hne]. contradiction.
Qed.

Lemma timeout_removes_its_reminders_witness :
  let state := run_commands 0 initial_state
                 [ AddReminderMessage "homework" (Num 5) TimeUnits.seconds;
                   Time (Num 9) TimeUnits.seconds;
                   AddReminderMessage "piano" (Num 9) TimeUnits.seconds ] in
  let t := {| timeout_origin := timer_add_reminder; timeout_delay := Num 5000;
              timeout_id := Num 1; timeout_text := Some "homework";
              timeout_seconds := Num 5 |} in
  timeout_id t = Num 1 /\
  reminder_ids state = [Num 1; Num 1; Num 2] /\
  reminder_ids (fst (run_timeout t state)) = [Num 2] /\
  Num 1 ∉ reminder_ids (fst (run_timeout t state)).
Proof.
  intros state t.
  assert (timeout_id t = Num 1) as Hid by reflexivity.
  split; [exact Hid|]. split; [reflexivity|]. split; [reflexivity|].
  exact (proj1 (proj2 (timeout_removes_its_reminders t state 1 Hid))).
Defined.

(** X18: the callback of a timer always announces that it is time; it
    sends nothing else when the memory holds its subject, so a subject
    whose duration was confirmed is not asked about again. *)
Theorem timeout_does_not_ask_about_a_remembered_subject t state subject :
  timeout_text t = Some subject ->
  is_Some (userModel state !! subject) ->
  snd (run_timeout t state) = [ concat_all [ "It is time for your "; subject; "!" ] ].
Proof.
  intros Htext [v Hv]. cbn [run_timeout snd]. rewrite Htext. cbn [opt_to_string].
  rewrite bool_decide_eq_false_2 by (rewrite Hv; discriminate).
  rewrite andb_false_r. destruct (timeout_origin t); reflexivity.
Qed.

Lemma timeout_does_not_ask_about_a_remembered_subject_witness :
  let state := set_userModel {[ "homework" := Num 20 ]} initial_state in
  let t := {| timeout_origin := timer_add_reminder; timeout_delay := Num 5000;
              timeout_id := Num 1; timeout_text := Some "homework";
              timeout_seconds := Num 5 |} in
  timeout_text t = Some "homework" /\
  is_Some (userModel state !! "homework") /\
  snd (run_timeout t state) = [ "It is time for your homework!" ] /\
  snd (run_timeout t initial_state)
    = [ "It is time for your homework!";
        "Should I remember that homework takes 5 seconds?" ].
Proof.
  intros state t.
  assert (timeout_text t = Some "homework") as Htext by reflexivity.
  assert (is_Some (userModel state !! "homework")) as Hmem by (eexists; reflexivity).
  split; [exact Htext|]. split; [exact Hmem|]. split; [|vm_compute; reflexivity].
  exact (timeout_does_not_ask_about_a_remembered_subject t state "homework" Htext Hmem).
Defined.

Lemma confirm_on_slot now state slot subject quantity unit c :
  last (dialogHistory state) = Some slot ->
  info_text slot = Some subject -> info_quantity slot = Some quantity ->
  info_unit slot = Some unit ->
  str_truthy subject = true -> num_truthy quantity = true ->
  executeMessage now state (Confirm c) =
    if c
    then (set_userModel (<[subject := convertDurationToSeconds quantity unit]>
                           (userModel state)) state,
          Some "Consider it done.")
    else (state, Some "Alright, I won't.").
Proof.
  intros Hlast Ht Hq Hu Hst Hqt. unfold executeMessage; cbn [executeMessage_with].
  unfold case_confirm. rewrite last_index_lookup, Hlast, Ht, Hq, Hu, Hst, Hqt.
  destruct c; reflexivity.
Qed.

(** X19: a confirmation on a complete last slot (a subject that is not
    empty, a quantity that is neither [0] nor [NaN], a unit).  Declined,
    it changes nothing and is answered with the refusal; accepted, it
    stores the converted duration of the slot under its subject, changes
    nothing else, and is answered with the acknowledgement. *)
Theorem confirmation_on_a_complete_slot now state slot subject quantity unit :
  last (dialogHistory state) = Some slot ->
  info_text slot = Some subject -> info_quantity slot = Some quantity ->
  info_unit slot = Some unit ->
  str_truthy subject = true -> num_truthy quantity = true ->
  executeMessage now state (Confirm false) = (state, Some "Alright, I won't.") /\
  executeMessage now state (Confirm true) =
    ({| reminders := reminders state; nextId := nextId state;
        dialogHistory := dialogHistory state;
        userModel := <[subject := convertDurationToSeconds quantity unit]> (userModel state) |},
     Some "Consider it done.").
Proof.
  intros Hlast Ht Hq Hu Hst Hqt. split.
  - exact (confirm_on_slot now state slot subject quantity unit false Hlast Ht Hq Hu Hst Hqt).
  - exact (confirm_on_slot now state slot subject quantity unit true Hlast Ht Hq Hu Hst Hqt).
Qed.

Lemma confirmation_on_a_complete_slot_witness :
  let state := fst (executeMessage 0 initial_state
                      (AddReminderMessage "homework" (Num 2) TimeUnits.hours)) in
  let slot := {| info_id := Num 1; info_quantity := Some (Num 2);
                 info_unit := Some TimeUnits.hours; info_text := Some "homework" |} in
  last (dialogHistory state) = Some slot /\
  str_truthy "homework" = true /\ num_truthy (Num 2) = true /\
  executeMessage 0 state (Confirm false) = (state, Some "Alright, I won't.") /\
  userModel (fst (executeMessage 0 state (Confirm true))) !! "homework" = Some (Num 7200).
Proof.
  intros state slot.
  assert (last (dialogHistory state) = Some slot) as Hlast by reflexivity.
  assert (str_truthy "homework" = true) as Hst by reflexivity.
  assert (num_truthy (Num 2) = true) as Hqt by reflexivity.
  split; [exact Hlast|]. split; [exact Hst|]. split; [exact Hqt|].
  destruct (confirmation_on_a_complete_slot 0 state slot "homework" (Num 2) TimeUnits.hours
              Hlast eq_refl eq_refl eq_refl Hst Hqt) as [Hno Hyes].
  split; [exact Hno|]. rewrite Hyes. reflexivity.
Defined.

(** X20: what an accepted confirmation stores is what a later reminder
    without a time uses.  After the confirmation of a complete slot, the
    add-reminder command without a time for a text that is rewritten to
    the subject of the slot schedules a reminder with the converted
    duration of the slot, under the id of the counter, and answers with
    the scheduling confirmation. *)
Theorem confirmed_duration_is_reused now now' state slot text quantity unit :
  last (dialogHistory state) = Some slot ->
  info_text slot = Some (rewrite_pronouns text) -> info_quantity slot = Some quantity ->
  info_unit slot = Some unit ->
  str_truthy (rewrite_pronouns text) = true -> num_truthy quantity = true ->
  let subject := rewrite_pronouns text in
  let secs := convertDurationToSeconds quantity unit in
  let confirmed := fst (executeMessage now state (Confirm true)) in
  let result := executeMessage now' confirmed (AddReminderNoTimeMessage text) in
  snd result = Some (scheduled_reply subject secs) /\
  reminders (fst result) = reminders state ++
    [ {| reminder_id := nextId state; reminder_date := date_after now' secs;
         reminder_text := subject;
         reminder_timeout :=
           {| timeout_origin := timer_add_reminder_no_time;
              timeout_delay := num_mul secs (Num 1000);
              timeout_id := nextId state; timeout_text := Some subject;
              timeout_seconds := secs |} |} ].
Proof.
  intros Hlast Ht Hq Hu Hst Hqt. cbn zeta.
  rewrite (confirm_on_slot now state slot _ quantity unit true Hlast Ht Hq Hu Hst Hqt).
  cbn [fst]. unfold executeMessage; cbn [executeMessage_with].
  unfold case_add_reminder_no_time.
  cbn [userModel set_userModel set_dialogHistory set_nextId].
  rewrite lookup_insert_eq. rewrite (convert_truthy _ unit Hqt). cbn. split; reflexivity.
Qed.

Lemma confirmed_duration_is_reused_witness :
  let state := fst (executeMessage 0 initial_state
                      (AddReminderMessage "walk with my dog" (Num 2) TimeUnits.hours)) in
  let slot := {| info_id := Num 1; info_quantity := Some (Num 2);
                 info_unit := Some TimeUnits.hours;
                 info_text := Some "walk with your dog" |} in
  last (dialogHistory state) = Some slot /\
  info_text slot = Some (rewrite_pronouns "walk with my dog") /\
  str_truthy (rewrite_pronouns "walk with my dog") = true /\ num_truthy (Num 2) = true /\
  snd (executeMessage 5 (fst (executeMessage 0 state (Confirm true)))
         (AddReminderNoTimeMessage "walk with my dog"))
    = Some "Ok, I will remind you about walk with your dog in 7200 seconds.".
Proof.
  intros state slot.
  assert (last (dialogHistory state) = Some slot) as Hlast by reflexivity.
  assert (info_text slot = Some (rewrite_pronouns "walk with my dog")) as Ht by reflexivity.
  assert (str_truthy (rewrite_pronouns "walk with my dog") = true) as Hst by reflexivity.
  assert (num_truthy (Num 2) = true) as Hqt by reflexivity.
  split; [exact Hlast|]. split; [exact Ht|]. split; [exact Hst|]. split; [exact Hqt|].
  exact (proj1 (confirmed_duration_is_reused 0 5 state slot "walk with my dog" (Num 2)
                  TimeUnits.hours Hlast Ht eq_refl eq_refl Hst Hqt)).
Defined.

End Callbacks.

(** ** Ids typed back, and quantities that are not numbers *)

Section TypedBack.

(** X21: the id that the list prints for an active reminder, run
    through the builder of the clear-reminder command, is that id again,
    and the command built from it removes one reminder with that id. *)
Theorem listed_id_can_be_cleared now state r :
  reachable state -> r ∈ reminders state ->
  let message := ClearReminderMessage (Number (num_to_string (reminder_id r))) in
  message = ClearReminderMessage (reminder_id r) /\
  (length (reminders (fst (executeMessage now state message))) + 1
   = length (reminders state))%nat /\
  exists r', r' ∈ reminders state /\ reminder_id r' = reminder_id r /\
    snd (executeMessage now state message)
      = Some (concat_all [ "Ok, I will not remind you to "; reminder_text r'; "." ]).
Proof.
  intros Hreach Hr. cbn zeta.
  apply reachable_invariant in Hreach as [(n & _ & _ & Hids & _) _ _].
  rewrite Forall_forall in Hids. destruct (Hids r Hr) as (i & Hi & Hrange).
  rewrite Hi, Number_of_printed by lia. split; [reflexivity|].
  destruct (find_some_in (fun x => num_seq (reminder_id x) (Num i)) _ r Hr)
    as (r' & Hfind & Hr' & Hp); [now apply num_seq_Num|].
  unfold executeMessage; cbn [executeMessage_with]. unfold case_clear_reminder.
  rewrite Hfind. cbn [fst snd reminders set_reminders]. split.
  - eapply length_remove_first, Hfind.
  - exists r'. repeat split; [exact Hr' | now apply num_seq_Num].
Qed.

Lemma listed_id_can_be_cleared_witness :
  let state := run_commands 0 initial_state
                 [ AddReminderMessage "homework" (Num 5) TimeUnits.seconds;
                   AddReminderMessage "piano" (Num 9) TimeUnits.seconds ] in
  let r := {| reminder_id := Num 2; reminder_date := Num 9000; reminder_text := "piano";
              reminder_timeout :=
                {| timeout_origin := timer_add_reminder; timeout_delay := Num 9000;
                   timeout_id := Num 2; timeout_text := Some "piano";
                   timeout_seconds := Num 9 |} |} in
  reachable state /\ r ∈ reminders state /\
  parseMessage (String.append "clear reminder " (num_to_string (reminder_id r)))
    = Some (ClearReminderMessage (Num 2)) /\
  ClearReminderMessage (Number (num_to_string (reminder_id r)))
    = ClearReminderMessage (reminder_id r).
Proof.
  intros state r.
  assert (reachable state) as Hreach.
  { apply reachable_run_commands; [apply reachable_initial|].
    repeat apply Forall_cons_2; [| |apply Forall_nil_2].
    - apply (parseMessage_parser_built "remind me about my homework in 5 seconds").
      vm_compute. reflexivity.
    - apply (parseMessage_parser_built "remind me about my piano in 9 seconds").
      vm_compute. reflexivity. }
  assert (r ∈ reminders state) as Hr by (right; left).
  split; [exact Hreach|]. split; [exact Hr|]. split; [vm_compute; reflexivity|].
  exact (proj1 (listed_id_can_be_cleared 0 state r Hreach Hr)).
Defined.

(** X22: a quantity that is [NaN] (the article written with a capital
    [A]) is not rejected: the add-reminder command schedules a reminder
    whose date and whose timer delay are [NaN], and announces it in
    [NaN] seconds, whatever the unit. *)
Theorem reminder_in_NaN_seconds now state text unit :
  let result := executeMessage now state (AddReminderMessage text NaN unit) in
  snd result = Some (concat_all [ "Ok, I will remind you about "; rewrite_pronouns text;
                                  " in NaN seconds." ]) /\
  exists r, reminders (fst result) = reminders state ++ [r] /\
    reminder_id r = nextId state /\ reminder_date r = NaN /\
    timeout_delay (reminder_timeout r) = NaN.
Proof.
  cbn zeta. unfold executeMessage; cbn [executeMessage_with]. unfold case_add_reminder.
  assert (convertDurationToSeconds NaN unit = NaN) as -> by (destruct unit; reflexivity).
  split; [reflexivity|]. eexists. cbn. repeat split.
Qed.

End TypedBack.

(** ** The subject after the rewrite *)

Section Rewrite.

Lemma replace_word_nonempty w rep prev c r :
  rep <> EmptyString -> replace_word_from w rep prev 0 (String c r) <> EmptyString.
Proof.
  intros Hrep. cbn [replace_word_from].
  destruct (word_at w prev (String c r)); [|discriminate].
  destruct rep as [|x rep]; [contradiction|]. rewrite append_cons. discriminate.
Qed.

(** X23: the rewrite of the pronouns never empties a subject: the
    rewritten subject is empty exactly when the typed one is, so the
    guard on the subject in the time case depends on the typed subject
    alone. *)
Theorem rewrite_keeps_subjects_nonempty text :
  str_truthy (rewrite_pronouns text) = str_truthy text.
Proof.
  destruct text as [|c r]; [reflexivity|]. cbn [str_truthy].
  unfold rewrite_pronouns, replace_word.
  destruct (replace_word_from "my" "your" None 0 (String c r)) as [|c' r'] eqn:E.
  - now apply replace_word_nonempty in E.
  - destruct (replace_word_from "me" "you" None 0 (String c' r')) as [|c'' r''] eqn:E'.
    + now apply replace_word_nonempty in E'.
    + reflexivity.
Qed.

Lemma replace_word_identity w rep s : forall prev,
  has_word w prev s = false -> replace_word_from w rep prev 0 s = s.
Proof.
  induction s as [|c r IH]; intros prev H; [reflexivity|].
  cbn [has_word] in H. apply orb_false_iff in H as [Hat Hrest].
  cbn [replace_word_from]. rewrite Hat. f_equal. now apply IH.
Qed.

(** X24: a subject in which neither [my] nor [me] stands as a whole
    word is stored and echoed as it was typed. *)
Theorem subject_without_pronouns_is_kept text :
  has_word "my" None text = false -> has_word "me" None text = false ->
  rewrite_pronouns text = text.
Proof.
  intros Hmy Hme. unfold rewrite_pronouns, replace_word.
  rewrite (replace_word_identity "my" "your" text None Hmy).
  exact (replace_word_identity "me" "you" text None Hme).
Qed.

Lemma subject_without_pronouns_is_kept_witness :
  has_word "my" None "homework at the academy" = false /\
  has_word "me" None "homework at the academy" = false /\
  rewrite_pronouns "homework at the academy" = "homework at the academy".
Proof.
  assert (has_word "my" None "homework at the academy" = false) as Hmy
    by (vm_compute; reflexivity).
  assert (has_word "me" None "homework at the academy" = false) as Hme
    by (vm_compute; reflexivity).
  split; [exact Hmy|]. split; [exact Hme|].
  exact (subject_without_pronouns_is_kept "homework at the academy" Hmy Hme).
Defined.

End Rewrite.

(** ** The patterns of the intent table *)

Section Patterns.

Ltac required_group M name :=
  let H := fresh "Hgroup" in
  assert (is_Some (_ !! name)) as [? H]
    by (apply (matches_required_groups _ _ _ _ M name);
        apply list_elem_of_In; cbv; tauto);
  rewrite H.

Lemma no_time_text_needs_a_tail input groups :
  matches add_reminder_no_time_pattern input ∅ groups ->
  last_char None input <> Some " "%char ->
  is_Some (groups !! "text").
Proof.
  unfold add_reminder_no_time_pattern. cbn [seqs]. intros M Hlast.
  inversion M as [| | | | a b w1 w23 c1 c2 c3 M1 M23 | | | | | | |]; subst.
  inversion M23 as [| | | | a b w2 w3 c1 c2' c3 M2 M3 | | | | | | |]; subst.
  inversion M3 as [| | | | | | | | | a c | a w c c' Hne Mg |]; subst.
  - exfalso. apply Hlast.
    rewrite !last_char_append. cbn [last_char].
    rewrite (remind_me_about_ends_blank _ _ _ None M1).
    destruct (articles_end_blank _ _ _ M2 (Some " "%char)) as [-> | ->]; reflexivity.
  - inversion Mg; subst. apply lookup_insert_is_Some'. now left.
Qed.

(** X25: whenever a pattern of the table matches an input that does
    not end in a blank, the builder of its intent finds every group it
    reads and returns a command.  (On an input that ends in a blank the
    pattern of the add-reminder command without a time matches with its
    text group undefined.) *)
Theorem builders_get_their_groups i r input groups :
  i ∈ intents -> r ∈ regexps i ->
  matches r input ∅ groups ->
  last_char None input <> Some " "%char ->
  is_Some (func i groups).
Proof.
  intros Hi Hr M Hlast. unfold intents in Hi.
  repeat (apply elem_of_cons in Hi as [-> | Hi]); try (now apply elem_of_nil in Hi);
    cbn [regexps func] in Hr |- *; try (eexists; reflexivity);
    repeat (apply elem_of_cons in Hr as [-> | Hr]); try (now apply elem_of_nil in Hr).
  - required_group M "quantity". required_group M "text". required_group M "unit".
    eexists; reflexivity.
  - required_group M "quantity". required_group M "text". required_group M "unit".
    eexists; reflexivity.
  - destruct (no_time_text_needs_a_tail _ _ M Hlast) as [t ->]. eexists; reflexivity.
  - required_group M "id". eexists; reflexivity.
  - required_group M "quantity". required_group M "unit". eexists; reflexivity.
Qed.

Lemma builders_get_their_groups_witness :
  let i := {| regexps := [ add_reminder_no_time_pattern ];
              func := fun groups =>
                text ← groups !! "text"; Some (AddReminderNoTimeMessage text) |} in
  i ∈ intents /\ add_reminder_no_time_pattern ∈ regexps i /\
  matches add_reminder_no_time_pattern "remind me about my homework"
    ∅ {[ "text" := "homework" ]} /\
  last_char None "remind me about my homework" <> Some " "%char /\
  is_Some (func i {[ "text" := "homework" ]}) /\
  exec add_reminder_no_time_pattern "remind me about " = Some ∅ /\
  func i ∅ = None.
Proof.
  intros i.
  assert (i ∈ intents) as Hi by (right; right; left).
  assert (add_reminder_no_time_pattern ∈ regexps i) as Hr by (left).
  assert (matches add_reminder_no_time_pattern "remind me about my homework"
            ∅ {[ "text" := "homework" ]}) as M
    by (apply exec_sound; vm_compute; reflexivity).
  assert (last_char None "remind me about my homework" <> Some " "%char) as Hlast
    by (vm_compute; discriminate).
  split; [exact Hi|]. split; [exact Hr|]. split; [exact M|]. split; [exact Hlast|].
  split; [|split; vm_compute; reflexivity].
  exact (builders_get_their_groups i add_reminder_no_time_pattern _ _ Hi Hr M Hlast).
Defined.

Lemma all_chars_append p (a b : string) :
  all_chars p (String.append a b) = all_chars p a && all_chars p b.
Proof.
  induction a as [|c a IH]; [reflexivity|].
  rewrite append_cons. cbn [all_chars]. rewrite IH. apply andb_assoc.
Qed.

Lemma line_terminator_lower h : is_line_terminator h = true -> lower_ascii h = h.
Proof.
  destruct h as [[] [] [] [] [] [] [] []]; vm_compute; intros H;
    first [reflexivity | discriminate].
Qed.

Lemma digit_not_line_terminator h : is_digit h = true -> is_line_terminator h = false.
Proof.
  destruct h as [[] [] [] [] [] [] [] []]; vm_compute; intros H;
    first [reflexivity | discriminate].
Qed.

Lemma matches_line_free r w caps caps' :
  matches r w caps caps' -> line_free r = true -> no_line_terminator w = true.
Proof.
  unfold no_line_terminator.
  induction 1 as
    [ caps | c h caps Hc | h caps Hh | h caps Hh
    | a b w1 w2 caps1 caps2 caps3 Ma IHa Mb IHb
    | a b w caps caps' Ma IHa | a b w caps caps' Mb IHb
    | a caps | a w1 w2 caps1 caps2 caps3 Hne Ma IHa Ms IHs
    | a caps | a w caps caps' Hne Ma IHa
    | name' a w caps caps' Ma IHa ];
    cbn [line_free]; intros Hfree; try reflexivity.
  - cbn [all_chars]. rewrite andb_true_r. apply negb_true_iff in Hfree.
    apply negb_true_iff. destruct (is_line_terminator h) eqn:E; [|reflexivity].
    apply Ascii.eqb_eq in Hc. rewrite (line_terminator_lower h E) in Hc.
    rewrite <- Hc in Hfree. congruence.
  - cbn [all_chars]. now rewrite Hh.
  - cbn [all_chars]. now rewrite (digit_not_line_terminator h Hh).
  - apply andb_true_iff in Hfree as [Hfa Hfb].
    rewrite all_chars_append, IHa, IHb by assumption. reflexivity.
  - apply andb_true_iff in Hfree as [Hfa Hfb]. auto.
  - apply andb_true_iff in Hfree as [Hfa Hfb]. auto.
  - rewrite all_chars_append, IHa, IHs by assumption. reflexivity.
  - auto.
  - auto.
Qed.

Lemma star_dot_of_line_free w caps :
  no_line_terminator w = true -> matches (Star Dot) w caps caps.
Proof.
  unfold no_line_terminator. induction w as [|h w IH]; intros H; [constructor|].
  cbn [all_chars] in H. apply andb_true_iff in H as [Hh Hw].
  change (String h w) with (String.append (String h EmptyString) w).
  eapply matches_star_step; [discriminate | | now apply IH].
  constructor. now apply negb_true_iff in Hh.
Qed.

Lemma matches_without_groups r w caps caps' :
  matches r w caps caps' -> groups_of r = [] -> forall other, matches r w other other.
Proof.
  induction 1 as
    [ caps | c h caps Hc | h caps Hh | h caps Hh
    | a b w1 w2 caps1 caps2 caps3 Ma IHa Mb IHb
    | a b w caps caps' Ma IHa | a b w caps caps' Mb IHb
    | a caps | a w1 w2 caps1 caps2 caps3 Hne Ma IHa Ms IHs
    | a caps | a w caps caps' Hne Ma IHa
    | name' a w caps caps' Ma IHa ];
    cbn [groups_of]; intros Hg other; try (now constructor).
  - apply app_eq_nil in Hg as [Hga Hgb]. econstructor; eauto.
  - apply app_eq_nil in Hg as [Hga Hgb]. apply matches_alt_l. auto.
  - apply app_eq_nil in Hg as [Hga Hgb]. apply matches_alt_r. auto.
  - eapply matches_star_step; eauto.
  - apply matches_opt_take; auto.
  - discriminate.
Qed.

(** X26: the pattern of the add-reminder command without a time is the
    more general one: every input that the first pattern of the
    add-reminder command with a time matches, it matches too, taking
    the time phrase into the text.  Only the order of the table keeps
    such an input a command with a time. *)
Theorem timed_inputs_match_the_pattern_without_time input groups :
  matches add_reminder_pattern input ∅ groups ->
  exists text, matches add_reminder_no_time_pattern input ∅ {[ "text" := text ]}.
Proof.
  unfold add_reminder_pattern, add_reminder_no_time_pattern. cbn [seqs]. intros M.
  inversion M as [| | | | a b w1 w234 c1 c2 c3 M1 M234 | | | | | | |]; subst.
  inversion M234 as [| | | | a b w2 w34 c1 c2' c3 M2 M34 | | | | | | |]; subst.
  inversion M34 as [| | | | a b w3 w4 c1 c2'' c3 M3 M4 | | | | | | |]; subst.
  inversion M3 as [| | | | | | | | | | | name a w c c' Mtext]; subst.
  assert (no_line_terminator w3 = true) as H3
    by (eapply matches_line_free; [exact Mtext | reflexivity]).
  assert (no_line_terminator w4 = true) as H4
    by (eapply matches_line_free; [exact M4 | reflexivity]).
  assert (w4 <> EmptyString) as Hne4.
  { inversion M4 as [| | | | a b wa wb ca cb cc Ma Mb | | | | | | |]; subst.
    cbn [lit] in Ma.
    inversion Ma as [| | | | a b wc wd cd ce cf Mc Md | | | | | | |]; subst.
    inversion Mc; subst. rewrite !append_cons. discriminate. }
  exists (String.append w3 w4).
  apply matches_seq with (caps2 := ∅).
  { eapply matches_without_groups; [exact M1 | reflexivity]. }
  apply matches_seq with (caps2 := ∅).
  { eapply matches_without_groups; [exact M2 | reflexivity]. }
  apply matches_opt_take.
  { intros E. apply (f_equal String.length) in E. rewrite length_append in E.
    destruct w4; [contradiction | cbn in E; lia]. }
  apply (matches_group "text" (Star Dot) (String.append w3 w4) ∅ ∅).
  apply star_dot_of_line_free. unfold no_line_terminator in *.
  rewrite all_chars_append, H3, H4. reflexivity.
Qed.

Lemma timed_inputs_match_the_pattern_without_time_witness :
  matches add_reminder_pattern "remind me about my homework in 5 minutes" ∅
    {[ "text" := "homework"; "quantity" := "5"; "unit" := "minutes" ]} /\
  exists text,
    matches add_reminder_no_time_pattern "remind me about my homework in 5 minutes" ∅
      {[ "text" := text ]}.
Proof.
  assert (matches add_reminder_pattern "remind me about my homework in 5 minutes" ∅
            {[ "text" := "homework"; "quantity" := "5"; "unit" := "minutes" ]}) as M
    by (apply exec_sound; vm_compute; reflexivity).
  split; [exact M|].
  exact (timed_inputs_match_the_pattern_without_time _ _ M).
Defined.

Lemma two_blanks_after_prefix p t :
  (exists before after, t = String.append before (String " " (String " " after))) ->
  exists before after,
    String.append p t = String.append before (String " " (String " " after)).
Proof.
  intros (b & a & ->). exists (String.append p b), a. now rewrite append_assoc.
Qed.

(** X27: every input that the fronted pattern of the add-reminder
    command matches has two blanks in a row: the group of the article
    holds a blank of its own and the pattern has one more after it. *)
Theorem fronted_pattern_needs_two_blanks input groups :
  matches add_reminder_fronted_pattern input ∅ groups ->
  exists before after,
    input = String.append before (String " " (String " " after)).
Proof.
  unfold add_reminder_fronted_pattern. cbn [seqs]. intros M.
  repeat match goal with
  | H : matches (Seq _ (Seq _ _)) _ _ _ |- _ =>
      inversion H as [| | | | ? ? ? ? ? ? ? ? ? | | | | | | |]; subst; clear H
  end.
  do 7 apply two_blanks_after_prefix.
  match goal with
  | H : matches article ?w _ _ |- _ =>
      unfold article in H; cbn [seqs lit] in H;
      inversion H as [| | | | ? ? wa wb ? ? ? Ma Mb | | | | | | |]; subst; clear H;
      inversion Mb; subst
  end.
  match goal with
  | H : matches (Chr " ") ?w _ _ |- context [String.append _ (String.append ?w _)] =>
      inversion H; subst
  end.
  repeat match goal with
  | H : same_char _ " " = true |- _ => apply same_char_blank in H; subst
  end.
  exists wa. eexists. rewrite append_assoc. reflexivity.
Qed.

Lemma fronted_pattern_needs_two_blanks_witness :
  matches add_reminder_fronted_pattern "in 2 hours, remind me about my  walk" ∅
    {[ "quantity" := "2"; "unit" := "hours"; "text" := "walk" ]} /\
  (exists before after,
     "in 2 hours, remind me about my  walk"
     = String.append before (String " " (String " " after))) /\
  exec add_reminder_fronted_pattern "in 2 hours, remind me about my walk" = None.
Proof.
  assert (matches add_reminder_fronted_pattern "in 2 hours, remind me about my  walk" ∅
            {[ "quantity" := "2"; "unit" := "hours"; "text" := "walk" ]}) as M
    by (apply exec_sound; vm_compute; reflexivity).
  split; [exact M|]. split; [|vm_compute; reflexivity].
  exact (fronted_pattern_needs_two_blanks _ _ M).
Defined.

(** X28: with [createParser] as the specification describes it, the
    handler of inbound frames sends exactly one frame for every inbound
    frame, and that frame is a string: every frame is parsed to a command
    and the executor returns a reply for it. *)
Theorem every_frame_gets_one_reply now state rawMessage :
  exists state' reply, on_message now state rawMessage = Some (state', [Some reply]).
Proof.
  unfold on_message. destruct (parseMessage_total rawMessage) as [message ->]. cbn.
  destruct (executeMessage_returns now state message) as (state' & reply & ->).
  exists state', reply. reflexivity.
Qed.

End Patterns.
